(** * AstrBot: message components, response assembly, pipeline gates
      with their banned patterns, the Misskey sender and listener, the
      Matrix session sender, the SQLite conversation store, the JSON
      plugin storage and the FFmpeg lookup.

    Shallow embedding of the Python sources.  Python [str] values are
    Rocq [string]s (a character is one [ascii]; text outside ASCII is the
    byte sequence of its UTF-8 encoding), Python [int]s are [Z], [None]-able
    values are [option]s, dictionaries are stdpp [gmap]s, lists are lists.
    Code that mutates an object or talks to the outside world is written
    in state-passing style; code that can raise returns a [Result]. *)

From Stdlib Require Import ZArith Lia Ascii String List.
From Stdlib Require Import Sorting.Permutation Sorting.Sorted.
From stdpp Require Import base option list gmap strings pretty.

Open Scope string_scope.
Open Scope list_scope.

(* ===================================================================== *)
(** * Part I: definitions                                                 *)
(* ===================================================================== *)

(** ** Message components (astrbot.core.message.components)

    The component classes themselves are imported by the sources and by
    the tests ([Plain], [Image], [Reply], [At]); the constructors below
    carry the fields the sources read: [Plain.text], [Reply.id],
    [Reply.sender_id], [At.qq]. *)
Module Components.

Inductive Component : Type :=
| Plain (text : string)
| Image (file : string)
| File (name : string)
| Reply (id : string) (sender_id : string)
| At (qq : string).

(** [type(component).__name__] *)
Definition type_name (c : Component) : string :=
  match c with
  | Plain _ => "Plain"
  | Image _ => "Image"
  | File _ => "File"
  | Reply _ _ => "Reply"
  | At _ => "At"
  end.

(** [isinstance(component, Plain)] *)
Definition is_Plain (c : Component) : bool :=
  match c with Plain _ => true | _ => false end.

(** A message chain is an ordered list of components. *)
Definition MessageChain : Type := list Component.

End Components.

(** ** Python string helpers *)
Module PyStr.

(** [c.isspace()] on the ASCII range: TAB, LF, VT, FF, CR, the four
    separators FS, GS, RS, US, and SPACE. *)
Definition isspace (c : ascii) : bool :=
  let n := nat_of_ascii c in
  (Nat.leb 9 n && Nat.leb n 13) || (Nat.leb 28 n && Nat.leb n 32).

(** [s.lstrip()] *)
Fixpoint lstrip (s : string) : string :=
  match s with
  | EmptyString => EmptyString
  | String c s' => if isspace c then lstrip s' else s
  end.

(** [s.rstrip()] *)
Fixpoint rstrip (s : string) : string :=
  match s with
  | EmptyString => EmptyString
  | String c s' =>
      match rstrip s' with
      | EmptyString => if isspace c then EmptyString else String c EmptyString
      | r => String c r
      end
  end.

(** [s.strip()] *)
Definition strip (s : string) : string := rstrip (lstrip s).

(** every character of [s] is whitespace *)
Fixpoint all_space (s : string) : bool :=
  match s with
  | EmptyString => true
  | String c s' => isspace c && all_space s'
  end.

(** [s.startswith(p)] *)
Definition startswith (s p : string) : bool := String.prefix p s.

(** [p in s] for strings *)
Fixpoint contains (s p : string) : bool :=
  String.prefix p s ||
  match s with
  | EmptyString => false
  | String _ s' => contains s' p
  end.

(** [bool(s)]: a string is truthy when it is not empty. *)
Definition truthy (s : string) : bool :=
  match s with EmptyString => false | _ => true end.

(** [bool(o)] for a value that is [None] or a string. *)
Definition truthy_opt (o : option string) : bool :=
  match o with Some s => truthy s | None => false end.

(** [sep.join(parts)] with the empty separator *)
Definition join (parts : list string) : string :=
  fold_right String.append EmptyString parts.

(** Whether a byte continues a character of UTF-8 (the bytes
    10xxxxxx); every other byte starts a character. *)
Definition is_continuation (c : ascii) : bool :=
  Nat.leb 128 (nat_of_ascii c) && Nat.leb (nat_of_ascii c) 191.

(** The text after the continuation bytes at its head. *)
Fixpoint rest_of_char (s : string) : string :=
  match s with
  | EmptyString => EmptyString
  | String c s' => if is_continuation c then rest_of_char s' else s
  end.

(** [len(s)]: the number of characters. *)
Fixpoint len (s : string) : nat :=
  match s with
  | EmptyString => 0
  | String c s' => (if is_continuation c then 0 else 1) + len s'
  end.

(** [s[:n]]: the first [n] characters. *)
Fixpoint take (n : nat) (s : string) : string :=
  match s with
  | EmptyString => EmptyString
  | String c s' =>
      if is_continuation c then String c (take n s')
      else match n with
           | 0 => EmptyString
           | S n' => String c (take n' s')
           end
  end.

End PyStr.

(** ** Regular expressions (Python's [re], searched with [re.search])

    The patterns modelled are those built from literal characters, [.],
    the anchors [^], [$], [\A] and [\Z], classes of ASCII characters
    [[...]] and [[^...]], groups [(...)] and [(?:...)], alternation
    and the quantifiers [*], [+], [?], [{m}], [{m,}], [{,n}] and
    [{m,n}] (lazy or not), with no flags set.  Patterns that [re]
    rejects and patterns outside this fragment ([\d], [\w], [\b],
    back-references, look-around, flags, a quantified group that can
    match the empty string, a repetition count above [max_repeat], a
    brace that is not a quantifier) do not compile here.  Text and
    pattern are UTF-8, and a character outside ASCII counts as one
    character for [.], for [[^...]] and for a quantifier. *)
Module Re.

(** The places an anchor can ask for: the start of the text ([^],
    [\A]), its end ([\Z]), its end or the newline that ends it
    ([$]). *)
Inductive Assertion : Type :=
| AtStart
| AtEnd
| AtEndOrFinalNewline.

(** A compiled pattern over bytes; [Bytes negated ranges] is one byte
    that lies in one of the [ranges] (or in none of them, when
    [negated]). *)
Inductive Regex : Type :=
| Eps
| Bytes (negated : bool) (ranges : list (nat * nat))
| Assert (a : Assertion)
| Cat (r1 r2 : Regex)
| Alt (r1 r2 : Regex)
| Star (r : Regex).

Definition in_ranges (ranges : list (nat * nat)) (c : ascii) : bool :=
  existsb (fun range => Nat.leb (fst range) (nat_of_ascii c)
                        && Nat.leb (nat_of_ascii c) (snd range)) ranges.

Definition in_class (negated : bool) (ranges : list (nat * nat)) (c : ascii)
    : bool :=
  xorb negated (in_ranges ranges c).

Definition is_nil {A} (l : list A) : bool :=
  match l with [] => true | _ :: _ => false end.

(** Whether an anchor holds at a position: [at_start] says that nothing
    of the text lies before it, [rest] is what lies after it. *)
Definition holds (a : Assertion) (at_start : bool) (rest : list ascii) : bool :=
  match a with
  | AtStart => at_start
  | AtEnd => is_nil rest
  | AtEndOrFinalNewline =>
      match rest with
      | [] => true
      | [c] => Ascii.eqb c "010"%char
      | _ => false
      end
  end.



(** *** The matcher

    A backtracking matcher: [accepts r at_start s k] tries every way
    in which [r] matches a prefix of [s] and asks the continuation [k]
    about what is left. *)
Definition Cont : Type := bool -> list ascii -> bool.

(** The iterations of a [Star]; an iteration that consumes nothing is
    not repeated, so [fuel] the length of the text is enough. *)
Fixpoint star_loop (body : bool -> list ascii -> Cont -> bool) (k : Cont)
    (fuel : nat) (at_start : bool) (s : list ascii) : bool :=
  k at_start s
  || match fuel with
     | 0 => false
     | S fuel' =>
         body at_start s
           (fun at_start' s' =>
              Nat.ltb (length s') (length s)
              && star_loop body k fuel' at_start' s')
     end.

Fixpoint accepts (r : Regex) (at_start : bool) (s : list ascii) (k : Cont)
    : bool :=
  match r with
  | Eps => k at_start s
  | Bytes negated ranges =>
      match s with
      | c :: s' => in_class negated ranges c && k false s'
      | [] => false
      end
  | Assert a => holds a at_start s && k at_start s
  | Cat r1 r2 =>
      accepts r1 at_start s (fun at_start' s' => accepts r2 at_start' s' k)
  | Alt r1 r2 => accepts r1 at_start s k || accepts r2 at_start s k
  | Star r' => star_loop (accepts r') k (length s) at_start s
  end.

Fixpoint search_from (r : Regex) (at_start : bool) (s : list ascii) : bool :=
  accepts r at_start s (fun _ _ => true)
  || match s with
     | [] => false
     | _ :: s' => search_from r false s'
     end.

(** [re.search(pattern, text)] as a truth value, for a compiled
    pattern. *)
Definition search (r : Regex) (text : string) : bool :=
  search_from r true (list_ascii_of_string text).

(** *** The syntax of patterns *)

Definition byte (n : nat) : Regex := Bytes false [(n, n)].

Definition continuation : Regex := Bytes false [(128, 191)].

(** One character outside ASCII, in UTF-8: a lead byte and its one to
    three continuation bytes. *)
Definition multibyte_char : Regex :=
  Alt (Cat (Bytes false [(192, 223)]) continuation)
      (Alt (Cat (Bytes false [(224, 239)]) (Cat continuation continuation))
           (Cat (Bytes false [(240, 247)])
                (Cat continuation (Cat continuation continuation)))).

(** [.]: any character but a newline. *)
Definition any_char_but_newline : Regex :=
  Alt (Bytes true [(10, 10); (128, 255)]) multibyte_char.

(** [[^...]] with ASCII members: any character that is not listed. *)
Definition char_not_in (ranges : list (nat * nat)) : Regex :=
  Alt (Bytes true (ranges ++ [(128, 255)])) multibyte_char.

(** Whether a pattern can match the empty string. *)
Fixpoint nullable (r : Regex) : bool :=
  match r with
  | Eps => true
  | Bytes _ _ => false
  | Assert _ => true
  | Cat r1 r2 => nullable r1 && nullable r2
  | Alt r1 r2 => nullable r1 || nullable r2
  | Star _ => true
  end.

Fixpoint power (n : nat) (r : Regex) : Regex :=
  match n with
  | 0 => Eps
  | S n' => Cat r (power n' r)
  end.

Inductive Quantifier : Type :=
| ZeroOrMore
| OneOrMore
| ZeroOrOne
| Repeat (min : nat) (max : option nat).

Definition quantify (q : Quantifier) (r : Regex) : Regex :=
  match q with
  | ZeroOrMore => Star r
  | OneOrMore => Cat r (Star r)
  | ZeroOrOne => Alt r Eps
  | Repeat min None => Cat (power min r) (Star r)
  | Repeat min (Some max) => Cat (power min r) (power (max - min) (Alt r Eps))
  end.

Definition is_digit (c : ascii) : bool :=
  Nat.leb 48 (nat_of_ascii c) && Nat.leb (nat_of_ascii c) 57.

(** A run of decimal digits: its value ([None] for no digit) and what
    follows. *)
Fixpoint digits (s : list ascii) (value : option nat)
    : option nat * list ascii :=
  match s with
  | c :: s' =>
      if is_digit c
      then digits s' (Some (10 * default 0 value + (nat_of_ascii c - 48)))
      else (value, s)
  | [] => (value, s)
  end.

(** The largest repetition count of the fragment. *)
Definition max_repeat : nat := 1000.

(** The quantifier at the head of [s]: [Some (None, s)] when [s] does
    not start with one, [None] when it starts with a brace that is
    outside the fragment. *)
Definition quantifier (s : list ascii)
    : option (option Quantifier * list ascii) :=
  match s with
  | "*"%char :: s' => Some (Some ZeroOrMore, s')
  | "+"%char :: s' => Some (Some OneOrMore, s')
  | "?"%char :: s' => Some (Some ZeroOrOne, s')
  | "{"%char :: s' =>
      let '(lo, s1) := digits s' None in
      match s1 with
      | "}"%char :: s2 =>
          match lo with
          | Some n =>
              if Nat.leb n max_repeat
              then Some (Some (Repeat n (Some n)), s2) else None
          | None => None
          end
      | ","%char :: s2 =>
          let '(hi, s3) := digits s2 None in
          match s3 with
          | "}"%char :: s4 =>
              let min := default 0 lo in
              if Nat.leb min max_repeat
                 && match hi with
                    | Some max => Nat.leb min max && Nat.leb max max_repeat
                    | None => true
                    end
              then Some (Some (Repeat min hi), s4) else None
          | _ => None
          end
      | _ => None
      end
  | _ => Some (None, s)
  end.

Definition starts_with_quantifier (s : list ascii) : bool :=
  match s with
  | "*"%char :: _ | "+"%char :: _ | "?"%char :: _ | "{"%char :: _ => true
  | _ => false
  end.

(** An atom with the quantifier that follows it, if any.  A quantifier
    may be followed by [?] (lazy: the same texts match); what is not
    [repeatable] takes no quantifier, and no quantifier follows
    another. *)
Definition quantified (atom : Regex) (repeatable : bool) (s : list ascii)
    : option (Regex * list ascii) :=
  match quantifier s with
  | None => None
  | Some (None, s') => Some (atom, s')
  | Some (Some q, s') =>
      if repeatable
      then
        let s'' := match s' with "?"%char :: t => t | _ => s' end in
        if starts_with_quantifier s'' then None
        else Some (quantify q atom, s'')
      else None
  end.

Definition is_alnum (n : nat) : bool :=
  (Nat.leb 48 n && Nat.leb n 57)
  || (Nat.leb 65 n && Nat.leb n 90)
  || (Nat.leb 97 n && Nat.leb n 122).

(** The character an escape stands for, in or out of a class: a
    control character, or the escaped punctuation itself. *)
Definition escaped_char (c : ascii) : option nat :=
  match c with
  | "n"%char => Some 10
  | "t"%char => Some 9
  | "r"%char => Some 13
  | "f"%char => Some 12
  | "v"%char => Some 11
  | _ =>
      let n := nat_of_ascii c in
      if Nat.ltb n 128 && negb (is_alnum n) then Some n else None
  end.

(** [k] continuation bytes. *)
Fixpoint continuations (k : nat) (s : list ascii)
    : option (Regex * list ascii) :=
  match k with
  | 0 => Some (Eps, s)
  | S k' =>
      match s with
      | c :: s' =>
          let n := nat_of_ascii c in
          if Nat.leb 128 n && Nat.leb n 191
          then match continuations k' s' with
               | Some (r, rest) => Some (Cat (byte n) r, rest)
               | None => None
               end
          else None
      | [] => None
      end
  end.

(** A literal character: one ASCII byte, or the bytes of one character
    in UTF-8. *)
Definition literal (c : ascii) (s : list ascii) : option (Regex * list ascii) :=
  let n := nat_of_ascii c in
  if Nat.ltb n 128 then Some (byte n, s)
  else
    let k := if Nat.leb 194 n && Nat.leb n 223 then 1
             else if Nat.leb 224 n && Nat.leb n 239 then 2
             else if Nat.leb 240 n && Nat.leb n 244 then 3
             else 0 in
    match k with
    | 0 => None
    | _ => match continuations k s with
           | Some (r, rest) => Some (Cat (byte n) r, rest)
           | None => None
           end
    end.

(** One member of a class: an escape, or an ASCII character other
    than the backslash, the brackets and the hyphen. *)
Definition class_char (s : list ascii) : option (nat * list ascii) :=
  match s with
  | "\"%char :: c :: s' =>
      match escaped_char c with
      | Some n => Some (n, s')
      | None => None
      end
  | "\"%char :: [] => None
  | "["%char :: _ => None
  | "]"%char :: _ => None
  | "-"%char :: _ => None
  | c :: s' =>
      if Nat.ltb (nat_of_ascii c) 128 then Some (nat_of_ascii c, s') else None
  | [] => None
  end.

(** The members of a class up to the closing bracket: characters and
    ranges; a hyphen stands for itself as the first or the last
    member. *)
Fixpoint class_items (fuel : nat) (s : list ascii) (first : bool)
    (ranges : list (nat * nat)) : option (list (nat * nat) * list ascii) :=
  match fuel with
  | 0 => None
  | S fuel' =>
      match s with
      | "]"%char :: s' => if first then None else Some (ranges, s')
      | "-"%char :: "]"%char :: s' => Some (ranges ++ [(45, 45)], s')
      | "-"%char :: s' =>
          if first then class_items fuel' s' false (ranges ++ [(45, 45)])
          else None
      | _ =>
          match class_char s with
          | None => None
          | Some (lo, s1) =>
              match s1 with
              | "-"%char :: "]"%char :: s2 =>
                  Some (ranges ++ [(lo, lo); (45, 45)], s2)
              | "-"%char :: s2 =>
                  match class_char s2 with
                  | Some (hi, s3) =>
                      if Nat.leb lo hi
                      then class_items fuel' s3 false (ranges ++ [(lo, hi)])
                      else None
                  | None => None
                  end
              | _ => class_items fuel' s1 false (ranges ++ [(lo, lo)])
              end
          end
      end
  end.

(** A class, after its opening bracket. *)
Definition char_class (s : list ascii) : option (Regex * list ascii) :=
  match s with
  | "^"%char :: s' =>
      match class_items (length s') s' true [] with
      | Some (ranges, rest) => Some (char_not_in ranges, rest)
      | None => None
      end
  | _ =>
      match class_items (length s) s true [] with
      | Some (ranges, rest) => Some (Bytes false ranges, rest)
      | None => None
      end
  end.

(** An atom that is not a group: the expression, whether it takes a
    quantifier, and what follows. *)
Definition atom (s : list ascii) : option (Regex * bool * list ascii) :=
  match s with
  | "."%char :: s' => Some (any_char_but_newline, true, s')
  | "^"%char :: s' => Some (Assert AtStart, false, s')
  | "$"%char :: s' => Some (Assert AtEndOrFinalNewline, false, s')
  | "["%char :: s' =>
      match char_class s' with
      | Some (r, rest) => Some (r, true, rest)
      | None => None
      end
  | "\"%char :: "A"%char :: s' => Some (Assert AtStart, false, s')
  | "\"%char :: "Z"%char :: s' => Some (Assert AtEnd, false, s')
  | "\"%char :: c :: s' =>
      match escaped_char c with
      | Some n => Some (byte n, true, s')
      | None => None
      end
  | "\"%char :: [] => None
  | "*"%char :: _ | "+"%char :: _ | "?"%char :: _ | "{"%char :: _ => None
  | c :: s' =>
      match literal c s' with
      | Some (r, rest) => Some (r, true, rest)
      | None => None
      end
  | [] => None
  end.

(** What follows the opening parenthesis of a group: [(...)] and
    [(?:...)] are in the fragment. *)
Definition group_body (s : list ascii) : option (list ascii) :=
  match s with
  | "?"%char :: ":"%char :: s' => Some s'
  | "?"%char :: _ => None
  | _ => Some s
  end.

Definition finish (alternatives : option Regex) (sequence : Regex) : Regex :=
  match alternatives with
  | Some a => Alt a sequence
  | None => sequence
  end.

(** The expression up to the end of the pattern or to the parenthesis
    that closes it; [alternatives] and [sequence] are what was read so
    far at this level.  Every call consumes at least one character, so
    [fuel] above the length of the pattern is enough. *)
Fixpoint parse (fuel : nat) (s : list ascii) (alternatives : option Regex)
    (sequence : Regex) : option (Regex * list ascii) :=
  match fuel with
  | 0 => None
  | S fuel' =>
      match s with
      | [] => Some (finish alternatives sequence, [])
      | ")"%char :: _ => Some (finish alternatives sequence, s)
      | "|"%char :: s' =>
          parse fuel' s' (Some (finish alternatives sequence)) Eps
      | "("%char :: s' =>
          match group_body s' with
          | None => None
          | Some body =>
              match parse fuel' body None Eps with
              | Some (group, ")"%char :: s1) =>
                  match quantified group (negb (nullable group)) s1 with
                  | Some (piece, s2) =>
                      parse fuel' s2 alternatives (Cat sequence piece)
                  | None => None
                  end
              | _ => None
              end
          end
      | _ =>
          match atom s with
          | Some (a, repeatable, s1) =>
              match quantified a repeatable s1 with
              | Some (piece, s2) =>
                  parse fuel' s2 alternatives (Cat sequence piece)
              | None => None
              end
          | None => None
          end
      end
  end.

(** [re.compile(pattern)]: [None] when [re] raises an error or the
    pattern is outside the fragment. *)
Definition compile (pattern : string) : option Regex :=
  let s := list_ascii_of_string pattern in
  match parse (S (length s)) s None Eps with
  | Some (r, []) => Some r
  | _ => None
  end.

(** [re.search(pattern, text)] as a truth value, for a pattern as it
    is written. *)
Definition re_search (pattern text : string) : option bool :=
  (fun r => search r text) <$> compile pattern.



End Re.

(** ** Response assembly (tests/test_pipeline.py,
       [test_segmented_reply_with_quote_fix]) *)
Module Respond.
Import Components.

(** Modelled from the spec: [RespondStage._is_empty_component] lives in
    astrbot/core/pipeline/respond/stage.py, which is not among the
    sources; only the test's four assertions on it are.  The spec (4.1,
    RespondStage): "a Plain component is empty iff its trimmed text has
    zero length; all other component kinds are never considered
    empty". *)
Definition _is_empty_component (comp : Component) : bool :=
  match comp with
  | Plain text => Nat.eqb (String.length (PyStr.strip text)) 0
  | _ => false
  end.

Section Assembler.

(** The emptiness test the loop calls ([stage._is_empty_component]). *)
Variable is_empty : Component -> bool.

(** The loop state: [(sent_messages, decoration_used)]. *)
Definition LoopState : Type := (list MessageChain * bool)%type.

(** One iteration of [for comp in non_record_comps:] (test lines
    316-328): an empty component is skipped ([continue]); the first
    component that is not gets [decorated_comps + [comp]] and sets
    [decoration_used]; every later one gets [[comp]]. *)
Definition segment_step (decorated_comps : MessageChain)
    (st : LoopState) (comp : Component) : LoopState :=
  let '(sent_messages, decoration_used) := st in
  if is_empty comp then st
  else if negb decoration_used
       then (sent_messages ++ [decorated_comps ++ [comp]], true)
       else (sent_messages ++ [[comp]], decoration_used).

(** The whole loop, started with [sent_messages = []] and
    [decoration_used = False]; the result is [sent_messages]. *)
Definition send_segments (decorated_comps non_record_comps : MessageChain)
    : list MessageChain :=
  fst (fold_left (segment_step decorated_comps) non_record_comps ([], false)).

End Assembler.

(** What the contract says is sent, stated without the loop: the
    non-empty components in order, the first behind the decoration. *)
Definition expected_segments (is_empty : Component -> bool)
    (decorated_comps non_record_comps : MessageChain) : list MessageChain :=
  match List.filter (fun c => negb (is_empty c)) non_record_comps with
  | [] => []
  | c :: rest => (decorated_comps ++ [c]) :: map (fun x => [x]) rest
  end.

End Respond.

(** ** The staged pipeline (astrbot.core.pipeline)

    Neither the scheduler nor any stage is among the sources: only
    tests/test_pipeline.py, which drives them, is.  Every definition of
    this module is modelled from the spec (4.1 and 4.2) and says which
    sentence it follows. *)
Module Pipeline.
Import Components.

(** [MessageType]; the names are the ones the test's whitelist entries
    spell ("test_platform:FriendMessage:test_sid_wl"). *)
Inductive MessageType : Type := FriendMessage | GroupMessage.

Definition MessageType_name (t : MessageType) : string :=
  match t with
  | FriendMessage => "FriendMessage"
  | GroupMessage => "GroupMessage"
  end.

(** The stage kinds, "in fixed execution order" (spec 4.1). *)
Inductive StageKind : Type :=
| WhitelistCheckStage_k
| ContentSafetyStage_k
| CommandDispatchStage_k
| LLMStage_k
| RespondStage_k.

(** Spec 7, the taxonomy of outcomes a stage can leave on the event. *)
Inductive ResultKind : Type :=
| WhitelistDenied
| SafetyRejected
| CommandResult (output : string)
| CommandNotFound
| LLM_RESULT (text : string)
| ProviderErrorReply (text : string).

Inductive ErrorKind : Type :=
| MalformedEvent
| MissingSession
| ProviderTimeout
| OtherError.

(** Spec 3: "StageResult: ... one of {continue, stop-propagation,
    error(kind, detail)}". *)
Inductive StageResult : Type :=
| Continue
| StopPropagation
| StageError (kind : ErrorKind) (detail : string).

(** Spec 3, Event.  [platform_name] is the adapter's name
    ([PlatformMetadata("test_platform", ...)] in the test); [is_at] says
    whether the message mentions the bot; [_has_send_oper] is the flag the
    test reads after a command; [llm_calls] counts provider calls. *)
Record Event : Type := {
  platform_name : string;
  message_type : MessageType;
  session_id : string;
  message_str : string;
  component_sequence : MessageChain;
  is_at : bool;
  result : option ResultKind;
  termination_flag : bool;
  _has_send_oper : bool;
  llm_calls : nat;
  log : list string
}.

(** Spec 3, PipelineContext: "holds resolved configuration ...
    whitelist/blacklist sets, persona and safety-keyword tables". *)
Record PipelineContext : Type := {
  id_whitelist : list string;
  internal_keywords : list string;
  extra_keywords : list string;
  command_prefix : string
}.

(** Modelled from the spec: a stage is "process(event, context) ->
    StageResult" over "the mutable Event and read-only Context". *)
Definition Stage : Type := PipelineContext -> Event -> Event * StageResult.

Definition set_terminated (ev : Event) (r : option ResultKind)
    (lines : list string) : Event :=
  {| platform_name := platform_name ev;
     message_type := message_type ev;
     session_id := session_id ev;
     message_str := message_str ev;
     component_sequence := component_sequence ev;
     is_at := is_at ev;
     result := r;
     termination_flag := true;
     _has_send_oper := _has_send_oper ev;
     llm_calls := llm_calls ev;
     log := log ev ++ lines |}.

(** Modelled from the spec: the "membership key
    platform:messageType:sessionId". *)
Definition membership_key (ev : Event) : string :=
  platform_name ev +:+ ":" +:+ MessageType_name (message_type ev)
    +:+ ":" +:+ session_id ev.

Definition in_whitelist (ctx : PipelineContext) (ev : Event) : bool :=
  existsb (String.eqb (membership_key ev)) (id_whitelist ctx).

(** "an explicit mention/at or a command prefix to wake the pipeline" *)
Definition is_wake (ctx : PipelineContext) (ev : Event) : bool :=
  is_at ev || PyStr.startswith (message_str ev) (command_prefix ctx).

(** Modelled from the spec (4.1, stage 1): "if a whitelist is configured
    and non-empty and the key is absent, sets termination_flag and stops
    propagation (with a log line for observability).  Group messages
    additionally require an explicit mention/at or a command prefix to wake
    the pipeline unless whitelisted".  The log line is the one the test
    looks for. *)
Definition WhitelistCheckStage : Stage := fun ctx ev =>
  let listed := in_whitelist ctx ev in
  let configured :=
    match id_whitelist ctx with [] => false | _ :: _ => true end in
  if configured && negb listed
  then (set_terminated ev (result ev)
          ["不在会话白名单中，已终止事件传播。"], StopPropagation)
  else
    match message_type ev with
    | GroupMessage =>
        if listed || is_wake ctx ev then (ev, Continue)
        else (set_terminated ev (result ev) [], StopPropagation)
    | FriendMessage => (ev, Continue)
    end.

(** Modelled from the spec: "a compiled set of banned patterns
    (built-ins plus operator-configured extras, each as a literal or
    regex anchored the way the operator specified, e.g., ^PREFIX anchors
    at start)".  Every keyword is compiled as a regular expression of
    [Re] (a literal is the expression that matches itself); there is no
    compiled set ([None]) when one of the keywords does not compile. *)
Definition banned_patterns (ctx : PipelineContext) : option (list Re.Regex) :=
  mapM Re.compile (internal_keywords ctx ++ extra_keywords ctx).

(** One of the patterns is found in the text. *)
Definition matches_banned (patterns : list Re.Regex) (text : string) : bool :=
  existsb (fun r => Re.search r text) patterns.

(** the text of the "textual components" of an event *)
Definition plain_texts (chain : MessageChain) : list string :=
  flat_map (fun c => match c with Plain t => [t] | _ => [] end) chain.

(** Modelled from the spec (4.1, stage 2): "matches message_str (and any
    textual components) against a compiled set of banned patterns ... On
    match: stop propagation, mark result as rejected, log "content safety
    check failed" with no further stages run."  The log line is the one
    the test looks for.  A keyword that does not compile is a
    configuration error, which "aborts startup" (spec 7); a context that
    holds one nevertheless leaves the stage with an error result ("every
    stage-local exception is caught and converted to a StageResult"). *)
Definition ContentSafetyStage : Stage := fun ctx ev =>
  match banned_patterns ctx with
  | None => (ev, StageError OtherError "invalid banned pattern")
  | Some patterns =>
      if matches_banned patterns (message_str ev)
         || existsb (matches_banned patterns)
                    (plain_texts (component_sequence ev))
      then (set_terminated ev (Some SafetyRejected) ["内容安全检查不通过"],
            StopPropagation)
      else (ev, Continue)
  end.

Section Scheduler.

(** The three later stages call collaborators (the command registry, the
    LLM provider, the platform's send primitive) that the spec keeps
    external; the scheduler is stated over any implementation of them. *)
Variable CommandDispatchStage LLMStage RespondStage : Stage.

(** Spec 4.1: "abort-on-stage-error policy (default: log and continue for
    non-fatal kinds, abort for fatal: malformed event, missing
    session)". *)
Definition fatal (k : ErrorKind) : bool :=
  match k with
  | MalformedEvent | MissingSession => true
  | _ => false
  end.

(** "Concrete stage kinds, in fixed execution order" *)
Definition stages : list (StageKind * Stage) :=
  [ (WhitelistCheckStage_k, WhitelistCheckStage);
    (ContentSafetyStage_k, ContentSafetyStage);
    (CommandDispatchStage_k, CommandDispatchStage);
    (LLMStage_k, LLMStage);
    (RespondStage_k, RespondStage) ].

(** Modelled from the spec (2 and 4.2): "executes stages in fixed order
    against shared Context -> each stage reads/writes the Event's result
    slot and may signal stop propagation".  The second component is the
    list of the stages that ran, in order. *)
Fixpoint run_stages (ctx : PipelineContext) (l : list (StageKind * Stage))
    (ev : Event) (ran : list StageKind) : Event * list StageKind :=
  match l with
  | [] => (ev, ran)
  | (k, st) :: rest =>
      let '(ev', r) := st ctx ev in
      match r with
      | Continue => run_stages ctx rest ev' (ran ++ [k])
      | StopPropagation => (ev', ran ++ [k])
      | StageError kind _ =>
          if fatal kind then (ev', ran ++ [k])
          else run_stages ctx rest ev' (ran ++ [k])
      end
  end.

Definition execute (ctx : PipelineContext) (ev : Event)
    : Event * list StageKind :=
  run_stages ctx stages ev [].

End Scheduler.

(** How many times the LLM stage ran in a trace. *)
Definition llm_stage_runs (ran : list StageKind) : nat :=
  length (List.filter
            (fun k => match k with LLMStage_k => true | _ => false end) ran).

(** The event of [FakeAstrMessageEvent.create_fake_event] (test lines
    71-93), fresh: no result, nothing sent. *)
Definition create_fake_event (message_str : string) (session_id : string)
    (is_at is_group : bool) : Event :=
  {| platform_name := "test_platform";
     message_type := if is_group then GroupMessage else FriendMessage;
     session_id := session_id;
     message_str := message_str;
     component_sequence :=
       Plain message_str :: (if is_at then [At "bot"] else []);
     is_at := is_at;
     result := None;
     termination_flag := false;
     _has_send_oper := false;
     llm_calls := 0;
     log := [] |}.

(** The configuration of the test's [config] fixture (lines 101-111); the
    built-in keyword is the one the test sends. *)
Definition test_config : PipelineContext :=
  {| id_whitelist := [ "test_platform:FriendMessage:test_sid_wl";
                       "test_platform:GroupMessage:test_sid_wl" ];
     internal_keywords := [ "色情" ];
     extra_keywords := [ "^TEST_NEGATIVE" ];
     command_prefix := "/" |}.

(** Stand-ins for the three collaborator stages, used to run the
    scheduler on concrete events: a command stage that answers, an LLM
    stage that counts its call, a respond stage that marks the send. *)
Definition sample_CommandDispatchStage : Stage := fun ctx ev =>
  if PyStr.startswith (message_str ev) (command_prefix ctx)
  then (set_terminated ev (Some CommandNotFound) ["unknown command"],
        StopPropagation)
  else (ev, Continue).

Definition sample_LLMStage : Stage := fun _ ev =>
  ({| platform_name := platform_name ev;
      message_type := message_type ev;
      session_id := session_id ev;
      message_str := message_str ev;
      component_sequence := component_sequence ev;
      is_at := is_at ev;
      result := Some (LLM_RESULT "OK");
      termination_flag := termination_flag ev;
      _has_send_oper := _has_send_oper ev;
      llm_calls := S (llm_calls ev);
      log := log ev ++ ["请求 LLM"] |}, Continue).

Definition sample_RespondStage : Stage := fun _ ev =>
  ({| platform_name := platform_name ev;
      message_type := message_type ev;
      session_id := session_id ev;
      message_str := message_str ev;
      component_sequence := component_sequence ev;
      is_at := is_at ev;
      result := result ev;
      termination_flag := termination_flag ev;
      _has_send_oper := true;
      llm_calls := llm_calls ev;
      log := log ev |}, Continue).

End Pipeline.

(** ** The Misskey sender
       (astrbot/core/platform/sources/misskey/misskey_event.py and
       misskey_adapter.py) *)
Module Misskey.
Import Components.

Inductive LogLevel : Type := DEBUG | INFO | WARNING | ERROR.

(** The JSON body [send_note] posts to [/api/notes/create]. *)
Record Payload : Type := {
  i : string;
  text : string;
  visibility : string;
  replyId : option string
}.

(** What a call leaves in the world, in order: log lines, the HTTP
    request that creates a note, and the call of the base class's
    [send]. *)
Inductive Effect : Type :=
| Log (level : LogLevel) (msg : string)
| HttpPost (url : string) (json : Payload)
| SuperSend (message : MessageChain).

(** The instance's answer to the request: status 200 with the decoded
    body's ["createdNote"] entry (absent, or an object), another status
    with its text, or an exception of the HTTP client. *)
Inductive HttpResponse : Type :=
| Status200 (createdNote : option (gmap string string))
| StatusOther (status : Z) (error_text : string)
| ClientException (e : string).

Record MisskeyPlatformAdapter : Type := {
  instance_url : string;
  access_token : string;
  network : string -> Payload -> HttpResponse
}.

(** [d.get('id', 'unknown')] *)
Definition id_or_unknown (d : gmap string string) : string :=
  default "unknown" (d !! "id").

(** [bool(d)] for a dictionary or [None] *)
Definition truthy_dict (o : option (gmap string string)) : bool :=
  match o with
  | Some d => negb (bool_decide (d = ∅))
  | None => false
  end.

(** [MisskeyPlatformAdapter.send_note]: the returned note (or [None])
    and the effects. *)
Definition send_note (self : MisskeyPlatformAdapter) (text : string)
    (reply_id : option string) (visibility : string)
    : option (gmap string string) * list Effect :=
  let url := instance_url self +:+ "/api/notes/create" in
  let payload :=
    {| i := access_token self;
       text := text;
       visibility := visibility;
       replyId := if PyStr.truthy_opt reply_id then reply_id else None |} in
  match network self url payload with
  | Status200 createdNote =>
      (createdNote,
       [ HttpPost url payload;
         Log DEBUG ("Note sent successfully: "
                    +:+ id_or_unknown (default ∅ createdNote)) ])
  | StatusOther status error_text =>
      (None,
       [ HttpPost url payload;
         Log ERROR ("Failed to send note: " +:+ pretty status
                    +:+ " - " +:+ error_text) ])
  | ClientException e =>
      (None,
       [ HttpPost url payload; Log ERROR ("Error sending note: " +:+ e) ])
  end.

(** [MisskeyPlatformEvent]: the adapter it was built with, and the
    ["original_note"] extra. *)
Record MisskeyPlatformEvent : Type := {
  adapter : option MisskeyPlatformAdapter;
  original_note : option (gmap string string)
}.

(** One iteration of [for component in message.chain:] over
    [(text_parts, reply_id)]. *)
Definition collect (st : list string * option string) (component : Component)
    : list string * option string :=
  let '(text_parts, reply_id) := st in
  match component with
  | Plain text => (text_parts ++ [text], reply_id)
  | Reply id _ => (text_parts, Some id)
  | Image _ => (text_parts ++ ["[图片]"], reply_id)
  | _ => (text_parts ++ ["[" +:+ type_name component +:+ "]"], reply_id)
  end.

Definition collect_all (chain : MessageChain) : list string * option string :=
  fold_left collect chain ([], None).

(** [MisskeyPlatformEvent.send] *)
Definition send (self : MisskeyPlatformEvent) (message : MessageChain)
    : list Effect :=
  match adapter self with
  | None => [ Log ERROR "Misskey adapter not available" ]
  | Some ad =>
      let '(text_parts, reply_id) := collect_all message in
      match text_parts with
      | [] => [ Log WARNING "No text content to send to Misskey" ]
      | _ :: _ =>
          let full_text := PyStr.join text_parts in
          let reply_id :=
            if truthy_dict (original_note self)
               && negb (PyStr.truthy_opt reply_id)
            then default ∅ (original_note self) !! "id"
            else reply_id in
          let '(result, effects) := send_note ad full_text reply_id "public" in
          effects
          ++ [ if truthy_dict result
               then Log INFO ("Successfully sent Misskey note: "
                              +:+ id_or_unknown (default ∅ result))
               else Log ERROR "Failed to send Misskey note" ]
          ++ [ SuperSend message ]
      end
  end.

(** The notes a run asked the platform to create: the [text] of every
    request, in order. *)
Definition posted_texts (effects : list Effect) : list string :=
  flat_map (fun e => match e with HttpPost _ p => [text p] | _ => [] end)
           effects.

(** The requests a run made, and the calls of the base class's
    [send]. *)
Definition posted_payloads (effects : list Effect) : list Payload :=
  flat_map (fun e => match e with HttpPost _ p => [p] | _ => [] end) effects.

Definition super_sends (effects : list Effect) : list MessageChain :=
  flat_map (fun e => match e with SuperSend m => [m] | _ => [] end) effects.

(** The ids of the [Reply] components of a chain, in order. *)
Definition reply_ids (chain : MessageChain) : list string :=
  flat_map (fun c => match c with Reply id _ => [id] | _ => [] end) chain.

(** *** Incoming notes ([should_process_note]) *)

(** A member of a decoded JSON object: not there, [null], or a value. *)
Inductive Field (A : Type) : Type :=
| Absent
| Null
| Val (a : A).
Arguments Absent {A}.
Arguments Null {A}.
Arguments Val {A} a.

(** [d.get(key)]: [None] for a member that is not there or is
    [null]. *)
Definition dict_get {A} (f : Field A) : option A :=
  match f with Val a => Some a | _ => None end.

(** [d.get(key, default)]: the default only for a member that is not
    there. *)
Definition dict_get_default {A} (f : Field A) (default : A) : option A :=
  match f with
  | Absent => Some default
  | Null => None
  | Val a => Some a
  end.

Inductive Raised : Type := AttributeError | TypeError.

Inductive Outcome (A : Type) : Type :=
| Returns (a : A)
| Raises (e : Raised).
Arguments Returns {A} a.
Arguments Raises {A} e.

(** The members of a note and of its author that the adapter reads. *)
Record NoteUser : Type := {
  nu_id : Field string;
  nu_name : Field string;
  nu_username : Field string
}.

Record Note : Type := {
  n_user : Field NoteUser;
  n_text : Field string;
  n_id : Field string;
  n_replyId : Field string
}.

(** [self.bot_user_info] when it is a dictionary that is not empty. *)
Record BotInfo : Type := {
  b_username : Field string;
  b_id : Field string
}.

(** The fields of the adapter that [should_process_note] reads;
    [bot_user_info] is [None] for [None] and for the empty
    dictionary. *)
Record Listener : Type := {
  bot_user_info : option BotInfo;
  listen_mentions : bool;
  listen_replies : bool
}.

(** [f"@{bot_username}"]: [None] is formatted as ["None"]. *)
Definition at_name (bot_username : option string) : string :=
  "@" +:+ default "None" bot_username.

(** The author [note_data.get("user", {})] of a note without user. *)
Definition no_user : NoteUser :=
  {| nu_id := Absent; nu_name := Absent; nu_username := Absent |}.

(** [should_process_note] *)
Definition should_process_note (self : Listener) (note_data : Note)
    : Outcome bool :=
  match bot_user_info self with
  | None => Returns false
  | Some info =>
      let bot_username := dict_get_default (b_username info) "" in
      let bot_id := dict_get_default (b_id info) "" in
      match dict_get_default (n_user note_data) no_user with
      | None => Raises AttributeError
      | Some author =>
          if bool_decide (dict_get (nu_id author) = bot_id)
          then Returns false
          else if listen_replies self
                  && PyStr.truthy_opt (dict_get (n_replyId note_data))
          then Returns true
          else if listen_mentions self
          then
            match dict_get_default (n_text note_data) "" with
            | None => Raises TypeError
            | Some text =>
                if PyStr.contains text (at_name bot_username)
                then Returns true
                else Returns false
            end
          else Returns false
      end
  end.

(** A message text is blank when nothing but whitespace is in it. *)
Definition blank (s : string) : bool := PyStr.all_space s.

(** An instance that accepts every note. *)
Definition accepting_adapter : MisskeyPlatformAdapter :=
  {| instance_url := "https://misskey.io";
     access_token := "token";
     network := fun _ _ => Status200 (Some {[ "id" := "n1" ]}) |}.

End Misskey.

(** ** The SQLite conversation store (astrbot/core/db/base/sqlite.py) *)
Module SQLite.

(** A row of the table [webchat_conversation].  Every column can hold
    SQL [NULL] ([None]): [new_conversation] inserts no [title] and no
    [persona_id], and [get_all_conversations] guards each column with
    [or].  The columns are in the order in which the sources pass them to
    [Conversation(...)] (line 196). *)
Record Row : Type := {
  user_id : option string;
  cid : option string;
  history : option string;
  created_at : option Z;
  updated_at : option Z;
  title : option string;
  persona_id : option string
}.

(** The [Conversation] data class of [..po] (imported, not among the
    sources), with the fields [get_conversations] passes positionally. *)
Record Conversation : Type := {
  conv_user_id : option string;
  conv_cid : option string;
  conv_history : option string;
  conv_created_at : option Z;
  conv_updated_at : option Z;
  conv_title : option string;
  conv_persona_id : option string
}.

(** [Conversation] built from all the columns of a selected row, in
    order (the call with the unpacked row at line 163) *)
Definition Conversation_of_row (res : Row) : Conversation :=
  {| conv_user_id := user_id res;
     conv_cid := cid res;
     conv_history := history res;
     conv_created_at := created_at res;
     conv_updated_at := updated_at res;
     conv_title := title res;
     conv_persona_id := persona_id res |}.

Inductive Exn : Type :=
| OperationalError (msg : string)
| OverflowError (msg : string).

Inductive Result (A : Type) : Type :=
| Ok (a : A)
| Raise (e : Exn).
Arguments Ok {A} a.
Arguments Raise {A} e.

(** The object and the database behind it: [connected] is
    [self.conn is not None]; [openable] says whether
    [aiosqlite.connect(self.db_path)] succeeds; the table is absent
    ([None]) until the schema script of [initialize] has run. *)
Record SQLiteDatabase : Type := {
  connected : bool;
  openable : bool;
  webchat_conversation : option (list Row)
}.

(** A method: it reads and writes the database and returns or raises. *)
Definition M (A : Type) : Type := SQLiteDatabase -> Result A * SQLiteDatabase.

Definition ret {A} (a : A) : M A := fun db => (Ok a, db).

Definition raise {A} (e : Exn) : M A := fun db => (Raise e, db).

Definition bind {A B} (m : M A) (f : A -> M B) : M B := fun db =>
  match m db with
  | (Ok a, db') => f a db'
  | (Raise e, db') => (Raise e, db')
  end.

Notation "'await' x <- m 'in' k" := (bind m (fun x => k))
  (at level 10, x name, m at level 100, k at level 200, only parsing).

(** [try: body except Exception as _: handler] *)
Definition try_except {A} (body : M A) (handler : M A) : M A := fun db =>
  match body db with
  | (Ok a, db') => (Ok a, db')
  | (Raise _, db') => handler db'
  end.

(** [_ensure_connection] (with [_get_conn]) *)
Definition _ensure_connection : M unit := fun db =>
  if connected db then (Ok tt, db)
  else if openable db
       then (Ok tt, {| connected := true;
                       openable := openable db;
                       webchat_conversation := webchat_conversation db |})
       else (Raise (OperationalError "unable to open database file"), db).

(** A statement that names the table fails when the table is not
    there. *)
Definition read_table : M (list Row) := fun db =>
  match webchat_conversation db with
  | Some rows => (Ok rows, db)
  | None => (Raise (OperationalError "no such table: webchat_conversation"), db)
  end.

Definition write_table (rows : list Row) : M unit := fun db =>
  (Ok tt, {| connected := connected db;
             openable := openable db;
             webchat_conversation := Some rows |}).

(** SQLite stores integers in 64 bits: binding a Python [int] outside
    that range raises [OverflowError]. *)
Definition int64 (z : Z) : bool :=
  ((- 2 ^ 63 <=? z) && (z <? 2 ^ 63))%Z.

Definition bind_int (z : Z) : M unit :=
  if int64 z then ret tt
  else raise (OverflowError
                "Python int too large to convert to SQLite INTEGER").

(** [WHERE user_id = ? AND cid = ?]: a comparison with [NULL] is not
    true. *)
Definition key_matches (user_id' cid' : string) (r : Row) : bool :=
  bool_decide (user_id r = Some user_id') && bool_decide (cid r = Some cid').

(** [get_conversation_by_user_id]; [fetchone] is the first selected
    row. *)
Definition get_conversation_by_user_id (user_id' cid' : string)
    : M (option Conversation) :=
  await _ <- _ensure_connection in
  await rows <- read_table in
  match List.filter (key_matches user_id' cid') rows with
  | [] => ret None
  | res :: _ => ret (Some (Conversation_of_row res))
  end.

(** [_exec_sql]: the connection is ensured, then the statement runs
    (the commit that follows has no effect of its own on one
    connection). *)
Definition _exec_sql (statement : M unit) : M unit :=
  await _ <- _ensure_connection in
  statement.

(** [UPDATE webchat_conversation SET ... WHERE user_id = ? AND cid = ?]:
    every selected row is rewritten by [set]. *)
Definition UPDATE_where (user_id' cid' : string) (set : Row -> Row) : M unit :=
  await rows <- read_table in
  write_table (map (fun r => if key_matches user_id' cid' r then set r else r)
                   rows).

Definition set_history (history' : string) (updated_at' : Z) (r : Row) : Row :=
  {| user_id := user_id r; cid := cid r;
     history := Some history';
     created_at := created_at r;
     updated_at := Some updated_at';
     title := title r; persona_id := persona_id r |}.

Definition set_title (title' : string) (r : Row) : Row :=
  {| user_id := user_id r; cid := cid r; history := history r;
     created_at := created_at r; updated_at := updated_at r;
     title := Some title'; persona_id := persona_id r |}.

Definition set_persona_id (persona_id' : string) (r : Row) : Row :=
  {| user_id := user_id r; cid := cid r; history := history r;
     created_at := created_at r; updated_at := updated_at r;
     title := title r; persona_id := Some persona_id' |}.

(** [update_conversation]; [now] is the reading [int(time.time())] of
    the clock, bound as a parameter of the statement once the statement
    is prepared (which needs the table). *)
Definition update_conversation (now : Z) (user_id' cid' history' : string)
    : M unit :=
  let updated_at' := now in
  _exec_sql (await _ <- read_table in
             await _ <- bind_int updated_at' in
             UPDATE_where user_id' cid' (set_history history' updated_at')).

(** [update_conversation_title] *)
Definition update_conversation_title (user_id' cid' title' : string) : M unit :=
  _exec_sql (UPDATE_where user_id' cid' (set_title title')).

(** [update_conversation_persona_id] *)
Definition update_conversation_persona_id (user_id' cid' persona_id' : string)
    : M unit :=
  _exec_sql (UPDATE_where user_id' cid' (set_persona_id persona_id')).

(** [ORDER BY updated_at DESC]: SQLite sorts [NULL] below every number,
    so descending order puts it last; rows with equal keys keep the order
    of the table. *)
Definition sql_ge (a b : option Z) : bool :=
  match a, b with
  | _, None => true
  | None, Some _ => false
  | Some x, Some y => (y <=? x)%Z
  end.

Fixpoint insert_desc (r : Row) (l : list Row) : list Row :=
  match l with
  | [] => [r]
  | y :: l' =>
      if sql_ge (updated_at r) (updated_at y) then r :: l
      else y :: insert_desc r l'
  end.

Definition order_by_updated_at_desc (rows : list Row) : list Row :=
  fold_right insert_desc [] rows.

(** [LIMIT ? OFFSET ?]: a negative offset counts as zero, and a negative
    limit is no limit at all. *)
Definition limit_offset {A} (limit offset : Z) (l : list A) : list A :=
  let l' := drop (Z.to_nat offset) l in
  if (limit <? 0)%Z then l' else take (Z.to_nat limit) l'.

(** One entry of the returned list (the dictionary built at lines
    276-283). *)
Record ConversationDict : Type := {
  d_user_id : string;
  d_cid : string;
  d_title : string;
  d_persona_id : string;
  d_created_at : Z;
  d_updated_at : Z
}.

(** [s[:8]] *)
Definition first8 (s : string) : string := PyStr.take 8 s.

(** The body of [for row in rows:].  [x or d] takes [d] when [x] is
    [None], empty or zero. *)
Definition row_dict (row : Row) : ConversationDict :=
  let safe_cid :=
    if PyStr.truthy_opt (cid row) then default "" (cid row) else "unknown" in
  let display_cid :=
    if Nat.leb 8 (PyStr.len safe_cid) then first8 safe_cid else safe_cid in
  {| d_user_id := default "" (user_id row);
     d_cid := safe_cid;
     d_title :=
       if PyStr.truthy_opt (title row) then default "" (title row)
       else "对话 " +:+ display_cid;
     d_persona_id := default "" (persona_id row);
     d_created_at := default 0%Z (created_at row);
     d_updated_at := default 0%Z (updated_at row) |}.

(** The two statements of a listing, over the rows [selected] by the
    [WHERE] clause: the count, then the page.  A statement is prepared
    (the table must exist) before its parameters are bound. *)
Definition count_and_page (selected : Row -> bool) (page page_size : Z)
    : M (list ConversationDict * Z) :=
  await all <- read_table in
  let total_count := Z.of_nat (length (List.filter selected all)) in
  let offset := ((page - 1) * page_size)%Z in
  await rows <- read_table in
  await _ <- bind_int page_size in
  await _ <- bind_int offset in
  let rows := limit_offset page_size offset
                (order_by_updated_at_desc (List.filter selected rows)) in
  ret (map row_dict rows, total_count).

(** [get_all_conversations] *)
Definition get_all_conversations (page page_size : Z)
    : M (list ConversationDict * Z) :=
  await _ <- _ensure_connection in
  try_except (count_and_page (fun _ => true) page page_size)
             (ret ([], 0%Z)).

(** *** Filters *)

(** ASCII lower case, as SQLite's [LIKE] folds it. *)
Definition lower (c : ascii) : ascii :=
  let n := nat_of_ascii c in
  if Nat.leb 65 n && Nat.leb n 90 then ascii_of_nat (n + 32) else c.

(** [text LIKE pattern]: [%] stands for any run of characters, [_] for
    one character (all its bytes), any other character for itself up to
    ASCII case. *)
Fixpoint like (pattern : string) : string -> bool :=
  match pattern with
  | EmptyString =>
      fun text => match text with EmptyString => true | _ => false end
  | String "%"%char p =>
      fix any (text : string) : bool :=
        like p text ||
        match text with
        | EmptyString => false
        | String _ t => any t
        end
  | String "_"%char p =>
      fun text =>
        match text with
        | String _ t => like p (PyStr.rest_of_char t)
        | _ => false
        end
  | String c p =>
      fun text =>
        match text with
        | String d t => Ascii.eqb (lower c) (lower d) && like p t
        | EmptyString => false
        end
  end.

(** SQL's three truth values: [None] is unknown. *)
Definition or3 (a b : option bool) : option bool :=
  match a, b with
  | Some true, _ | _, Some true => Some true
  | Some false, Some false => Some false
  | _, _ => None
  end.

Definition and3 (a b : option bool) : option bool :=
  match a, b with
  | Some false, _ | _, Some false => Some false
  | Some true, Some true => Some true
  | _, _ => None
  end.

Definition not3 (a : option bool) : option bool := negb <$> a.

Inductive Column : Type := col_user_id | col_cid | col_title | col_history.

Definition column (c : Column) (r : Row) : option string :=
  match c with
  | col_user_id => user_id r
  | col_cid => cid r
  | col_title => title r
  | col_history => history r
  end.

(** One element of [where_clauses] with the parameters it consumes:
    a parenthesised disjunction of [col LIKE ?], or one
    [col NOT LIKE ?]. *)
Inductive Clause : Type :=
| AnyLike (tests : list (Column * string))
| NotLike (col : Column) (param : string).

Definition like3 (r : Row) (t : Column * string) : option bool :=
  like (snd t) <$> column (fst t) r.

Definition eval_clause (r : Row) (c : Clause) : option bool :=
  match c with
  | AnyLike tests => fold_right or3 (Some false) (map (like3 r) tests)
  | NotLike col param => not3 (like3 r (col, param))
  end.

(** The clauses are joined by [AND]; a row is selected when the whole
    condition is true (with no clause there is no [WHERE]). *)
Definition selected_by (where_clauses : list Clause) (r : Row) : bool :=
  match fold_right and3 (Some true) (map (eval_clause r) where_clauses) with
  | Some true => true
  | _ => false
  end.

(** [bool(l)] for a list or [None] *)
Definition some_items (o : option (list string)) : list string :=
  default [] o.

Section Filtered.

(** [s.encode("unicode_escape").decode("utf-8")], a codec of Python's
    standard library. *)
Variable unicode_escape : string -> string.

(** Lines 306-349: the clauses, in the order in which they are
    appended. *)
Definition build_where_clauses
    (platforms message_types : option (list string))
    (search_query : option string)
    (exclude_ids exclude_platforms : option (list string)) : list Clause :=
  (match some_items platforms with
   | [] => []
   | l => [ AnyLike (map (fun platform => (col_user_id, platform +:+ ":%")) l) ]
   end)
  ++ (match some_items message_types with
      | [] => []
      | l => [ AnyLike (map (fun msg_type =>
                               (col_user_id, "%:" +:+ msg_type +:+ ":%")) l) ]
      end)
  ++ (if PyStr.truthy_opt search_query
      then
        let search_query := unicode_escape (default "" search_query) in
        let search_param := "%" +:+ search_query +:+ "%" in
        [ AnyLike [ (col_title, search_param); (col_user_id, search_param);
                    (col_cid, search_param); (col_history, search_param) ] ]
      else [])
  ++ map (fun exclude_id => NotLike col_user_id (exclude_id +:+ "%"))
         (some_items exclude_ids)
  ++ map (fun exclude_platform =>
            NotLike col_user_id (exclude_platform +:+ ":%"))
         (some_items exclude_platforms).

(** [get_filtered_conversations] *)
Definition get_filtered_conversations (page page_size : Z)
    (platforms message_types : option (list string))
    (search_query : option string)
    (exclude_ids exclude_platforms : option (list string))
    : M (list ConversationDict * Z) :=
  await _ <- _ensure_connection in
  try_except
    (let where_clauses :=
       build_where_clauses platforms message_types search_query
                           exclude_ids exclude_platforms in
     count_and_page (selected_by where_clauses) page page_size)
    (ret ([], 0%Z)).

End Filtered.

(** *** Creation, deletion and the list of one user *)

(** [INSERT INTO webchat_conversation(...) VALUES (...)]: the new row
    comes after the rows that are there. *)
Definition INSERT_row (r : Row) : M unit :=
  await rows <- read_table in
  write_table (rows ++ [r]).

(** The row that [new_conversation] inserts: the history is ["[]"],
    both times are the clock's reading, and no title and no persona are
    given. *)
Definition new_row (now : Z) (user_id' cid' : string) : Row :=
  let history' := "[]" in
  let updated_at' := now in
  let created_at' := updated_at' in
  {| user_id := Some user_id'; cid := Some cid';
     history := Some history';
     created_at := Some created_at'; updated_at := Some updated_at';
     title := None; persona_id := None |}.

(** [new_conversation]; [now] is the reading [int(time.time())] of the
    clock, bound twice. *)
Definition new_conversation (now : Z) (user_id' cid' : string) : M unit :=
  _exec_sql (await _ <- read_table in
             await _ <- bind_int now in
             await _ <- bind_int now in
             INSERT_row (new_row now user_id' cid')).

(** [DELETE FROM webchat_conversation WHERE user_id = ? AND cid = ?] *)
Definition DELETE_where (user_id' cid' : string) : M unit :=
  await rows <- read_table in
  write_table (List.filter (fun r => negb (key_matches user_id' cid' r)) rows).

(** [delete_conversation] *)
Definition delete_conversation (user_id' cid' : string) : M unit :=
  _exec_sql (DELETE_where user_id' cid').

(** [WHERE user_id = ?] *)
Definition user_matches (user_id' : string) (r : Row) : bool :=
  bool_decide (user_id r = Some user_id').

(** The [Conversation] that [get_conversations] builds from a row of
    [SELECT cid, created_at, updated_at, title, persona_id]: the user is
    the empty string and the history is ["[]"], whatever is stored. *)
Definition listed_conversation (row : Row) : Conversation :=
  {| conv_user_id := Some "";
     conv_cid := cid row;
     conv_history := Some "[]";
     conv_created_at := created_at row;
     conv_updated_at := updated_at row;
     conv_title := title row;
     conv_persona_id := persona_id row |}.

(** [get_conversations] *)
Definition get_conversations (user_id' : string) : M (list Conversation) :=
  await _ <- _ensure_connection in
  await rows <- read_table in
  ret (map listed_conversation
           (order_by_updated_at_desc
              (List.filter (user_matches user_id') rows))).

(** *** Sample databases *)

Definition sample_row (u c : string) (t : Z) : Row :=
  {| user_id := Some u; cid := Some c; history := Some "[]";
     created_at := Some t; updated_at := Some t;
     title := None; persona_id := None |}.

Definition sample_rows : list Row :=
  [ sample_row "test_platform:FriendMessage:a" "c1" 10;
    sample_row "test_platform:GroupMessage:b" "c2" 30;
    sample_row "webchat:FriendMessage:c" "c3" 20 ].

Definition sample_db : SQLiteDatabase :=
  {| connected := false; openable := true;
     webchat_conversation := Some sample_rows |}.

(** A database file that cannot be opened. *)
Definition unreachable_db : SQLiteDatabase :=
  {| connected := false; openable := false;
     webchat_conversation := Some sample_rows |}.

(** A database whose one conversation has no cid and an empty title. *)
Definition untitled_db : SQLiteDatabase :=
  {| connected := true; openable := true;
     webchat_conversation :=
       Some [ {| user_id := Some "webchat:FriendMessage:c"; cid := None;
                 history := None; created_at := None; updated_at := None;
                 title := Some ""; persona_id := None |} ] |}.

(** A database on which [initialize] never ran. *)
Definition uninitialized_db : SQLiteDatabase :=
  {| connected := true; openable := true; webchat_conversation := None |}.

End SQLite.

(** ** The JSON plugin storage (astrbot/core/db/plugin/json_impl.py) *)
Module JSONStorage.

(** [DIR] *)
Definition DIR : string := "data/plugin_data/json".

(** [os.path.join(a, b)]: an absolute [b] replaces [a]; otherwise the two
    are joined by one separator. *)
Definition os_path_join (a b : string) : string :=
  if PyStr.startswith b "/" then b
  else if negb (PyStr.truthy a) || PyStr.startswith (String.rev a) "/"
       then a +:+ b
       else a +:+ "/" +:+ b.

(** [_get_plugin_file_path] *)
Definition _get_plugin_file_path (plugin : string) : string :=
  os_path_join DIR (plugin +:+ ".json").

(** [json.loads(json.dumps(value))]: what a value comes back as when it
    was written to a file and is read again.  JSON has no tuples and
    only strings as keys: a tuple comes back as a list, a key of an
    inner dictionary that is not a string as a string; strings, numbers,
    booleans, [None], and lists and string-keyed dictionaries of such
    come back as they were. *)
Class JSON (Value : Type) : Type := json_roundtrip : Value -> Value.

(** A string comes back as it was. *)
#[global] Instance json_str : JSON string := fun value => value.

(** A few Python values for the examples: [None], a string, a list and
    a tuple of strings; the tuple comes back as a list. *)
Inductive SampleValue : Type :=
| SNone
| SStr (s : string)
| SList (items : list string)
| STuple (items : list string).

#[global] Instance json_sample : JSON SampleValue := fun value =>
  match value with
  | STuple items => SList items
  | _ => value
  end.

Section Storage.

(** The values a plugin stores: "any type that JSON can serialize"
    (docstring of [set]), with Python's [None] among them. *)
Context {Value : Type} {json : JSON Value}.
Variable PyNone : Value.

(** What a file holds: text that [json.loads] rejects, or the text
    that [json.dumps] writes for a dictionary; reading the latter gives
    the dictionary with every value as it comes back from JSON. *)
Inductive FileContent : Type :=
| Undecodable
| Decoded (data : gmap string Value).

(** The storage object and the directory behind it.  Dictionaries are
    objects: [objects] is the heap, a reference is an index into it, and
    [_data_cache] maps a plugin to the reference of its dictionary, so
    that a mutation through one reference is seen through every other. *)
Record State : Type := {
  files : gmap string FileContent;
  objects : list (gmap string Value);
  _data_cache : gmap string nat
}.

(** a new dictionary object *)
Definition alloc (d : gmap string Value) (s : State) : nat * State :=
  (length (objects s),
   {| files := files s;
      objects := objects s ++ [d];
      _data_cache := _data_cache s |}).

Definition deref (s : State) (data : nat) : gmap string Value :=
  default ∅ (objects s !! data).

(** an in-place change of the dictionary behind [data] *)
Definition mutate (data : nat) (f : gmap string Value -> gmap string Value)
    (s : State) : State :=
  {| files := files s;
     objects := alter f data (objects s);
     _data_cache := _data_cache s |}.

(** [self._data_cache[plugin] = data] *)
Definition cache_set (plugin : string) (data : nat) (s : State) : State :=
  {| files := files s;
     objects := objects s;
     _data_cache := <[plugin := data]> (_data_cache s) |}.

(** [_load_plugin_data]: the cached object when there is one; else
    what [json.loads] makes of the file, cached; else (no file, or one
    that does not decode) an empty dictionary is cached and another
    empty one is returned. *)
Definition _load_plugin_data (plugin : string) (s : State) : nat * State :=
  match _data_cache s !! plugin with
  | Some data => (data, s)
  | None =>
      match files s !! _get_plugin_file_path plugin with
      | Some (Decoded d) =>
          let '(data, s1) := alloc (json_roundtrip <$> d) s in
          (data, cache_set plugin data s1)
      | _ =>
          let '(cached, s1) := alloc ∅ s in
          alloc ∅ (cache_set plugin cached s1)
      end
  end.

(** [_save_plugin_data]: the file gets what [json.dumps] writes for the
    dictionary as it is now, and the cache the object.  The values are
    serializable, as [set] asks, so [json.dumps] raises nothing; the
    directory can be created and the file written. *)
Definition _save_plugin_data (plugin : string) (data : nat) (s : State)
    : State :=
  {| files := <[_get_plugin_file_path plugin := Decoded (deref s data)]>
                (files s);
     objects := objects s;
     _data_cache := <[plugin := data]> (_data_cache s) |}.

(** [set] *)
Definition set (plugin key : string) (value : Value) (s : State) : State :=
  let '(data, s1) := _load_plugin_data plugin s in
  let s2 := mutate data (fun d => <[key := value]> d) s1 in
  _save_plugin_data plugin data s2.

(** [get]; [data.get(key)] is [None] for a key that is not there. *)
Definition get (plugin key : string) (s : State) : Value * State :=
  let '(data, s1) := _load_plugin_data plugin s in
  (default PyNone (deref s1 data !! key), s1).

(** [delete] *)
Definition delete (plugin key : string) (s : State) : State :=
  let '(data, s1) := _load_plugin_data plugin s in
  if bool_decide (is_Some (deref s1 data !! key))
  then
    let s2 := mutate data (fun d => base.delete key d) s1 in
    _save_plugin_data plugin data s2
  else s1.

(** [clear_plugin] *)
Definition clear_plugin (plugin : string) (s : State) : State :=
  let '(data, s1) := alloc ∅ s in
  let s2 := _save_plugin_data plugin data s1 in
  {| files := files s2;
     objects := objects s2;
     _data_cache := base.delete plugin (_data_cache s2) |}.

(** The dictionary the storage holds for a plugin: the cached object's,
    else what the file reads as, else the empty one. *)
Definition stored (plugin : string) (s : State) : gmap string Value :=
  match _data_cache s !! plugin with
  | Some data => deref s data
  | None =>
      match files s !! _get_plugin_file_path plugin with
      | Some (Decoded d) => json_roundtrip <$> d
      | _ => ∅
      end
  end.

(** Every cached reference points into the heap. *)
Definition cache_valid (s : State) : Prop :=
  forall plugin data,
    _data_cache s !! plugin = Some data -> data < length (objects s).

(** A new process with an empty directory. *)
Definition empty_storage : State :=
  {| files := ∅; objects := []; _data_cache := ∅ |}.

(** A new process over a directory left by earlier ones. *)
Definition fresh_storage (dir : gmap string FileContent) : State :=
  {| files := dir; objects := []; _data_cache := ∅ |}.

(** The states a process goes through: it starts fresh and calls the
    methods of the class. *)
Inductive reachable : State -> Prop :=
| reach_fresh dir : reachable (fresh_storage dir)
| reach_set plugin key value s :
    reachable s -> reachable (set plugin key value s)
| reach_get plugin key s :
    reachable s -> reachable (snd (get plugin key s))
| reach_delete plugin key s :
    reachable s -> reachable (delete plugin key s)
| reach_clear plugin s :
    reachable s -> reachable (clear_plugin plugin s).

End Storage.

End JSONStorage.

(** ** The Matrix adapter's session sender
       (astrbot/core/platform/sources/matrix/matrix_adapter.py) *)
Module Matrix.

(** The components as this adapter reads them: the [text] of a
    [Plain]; [file], [url] and [filename] of an [Image]; the [name] of
    a [File]; a component of any other class by the name of its
    class. *)
Inductive Component : Type :=
| Plain (text : string)
| Image (file url filename : option string)
| File (name : option string)
| Other (type_name : string).

(** The [content] dictionary of a room message. *)
Record Content : Type := {
  msgtype : string;
  body : string
}.

(** What a call leaves in the world, in order: the calls of
    [self.client.room_send] (made, whether they then succeed or not) and
    the lines of [logger.error]. *)
Inductive Effect : Type :=
| RoomSend (room_id : string) (message_type : string) (content : Content)
| LogError (msg : string).

(** [str(x)] inside an f-string, for a value that is [None] or a
    string. *)
Definition format (o : option string) : string := default "None" o.

(** [x or y] for values that are [None] or strings. *)
Definition or_else (x y : option string) : option string :=
  if PyStr.truthy_opt x then x else y.

Section Client.

(** [self.client.room_send]: after what has happened so far, the call
    returns ([None]) or raises an exception (its text). *)
Variable room_send :
  list Effect -> string -> string -> Content -> option string.

(** [try: await self.client.room_send(...) except Exception as e:
    logger.error(f"<handler>{e}")], after the effects [done]. *)
Definition try_room_send (handler room_id : string) (content : Content)
    (done : list Effect) : list Effect :=
  match room_send done room_id "m.room.message" content with
  | None => done ++ [ RoomSend room_id "m.room.message" content ]
  | Some e =>
      done ++ [ RoomSend room_id "m.room.message" content;
                LogError (handler +:+ e) ]
  end.

(** [_send_image]: its whole body is inside its own [try]. *)
Definition _send_image (room_id : string) (file url filename : option string)
    (done : list Effect) : list Effect :=
  let image_path := or_else file url in
  if negb (PyStr.truthy_opt image_path)
  then done ++ [ LogError "Matrix 图片消息缺少文件路径或URL" ]
  else
    try_room_send "Matrix 图片发送失败: " room_id
      {| msgtype := "m.text";
         body := "[图片] " +:+ format (or_else filename (Some "image")) |}
      done.

(** [_send_file] *)
Definition _send_file (room_id : string) (name : option string)
    (done : list Effect) : list Effect :=
  try_room_send "Matrix 文件发送失败: " room_id
    {| msgtype := "m.text"; body := "[文件] " +:+ format name |}
    done.

(** One iteration of [for message_component in message_chain:]. *)
Definition send_component (room_id : string) (done : list Effect)
    (message_component : Component) : list Effect :=
  match message_component with
  | Plain text =>
      try_room_send "Matrix 消息发送失败: " room_id
        {| msgtype := "m.text"; body := text |} done
  | Image file url filename => _send_image room_id file url filename done
  | File name => _send_file room_id name done
  | Other _ => done
  end.

(** [send_by_session], for a session whose [session_id] is
    [room_id]. *)
Definition send_by_session (room_id : string) (message_chain : list Component)
    : list Effect :=
  if negb (PyStr.truthy room_id)
  then [ LogError "Matrix 会话缺少房间 ID" ]
  else fold_left (send_component room_id) message_chain [].

End Client.

(** The contents of the calls of [room_send] a run made, in order. *)
Definition room_sends (effects : list Effect) : list (string * Content) :=
  flat_map (fun e => match e with
                     | RoomSend room_id _ content => [(room_id, content)]
                     | LogError _ => []
                     end) effects.

Definition errors (effects : list Effect) : list string :=
  flat_map (fun e => match e with
                     | RoomSend _ _ _ => []
                     | LogError msg => [msg]
                     end) effects.

(** A homeserver that accepts everything, and one that refuses
    everything. *)
Definition accepting : list Effect -> string -> string -> Content
    -> option string := fun _ _ _ _ => None.

Definition refusing : list Effect -> string -> string -> Content
    -> option string := fun _ _ _ _ => Some "M_FORBIDDEN".

End Matrix.

(** ** Finding FFmpeg (astrbot/core/utils/ffmpeg_helper.py) *)
Module FFmpeg.

(** What the functions ask of the machine: [shutil.which("ffmpeg")],
    and for a path whether it exists and can be executed
    ([os.path.exists(path) and os.access(path, os.X_OK)]).  The machine
    does not change during a call: [get_ffmpeg_path_or_none] asks the
    same questions again after [get_ffmpeg_path] has answered. *)
Record Machine : Type := {
  which_ffmpeg : option string;
  executable : string -> bool
}.

(** [fallback_paths] *)
Definition fallback_paths : list string :=
  [ "/root/.pyffmpeg/bin/ffmpeg";
    "/usr/local/bin/ffmpeg";
    "/usr/bin/ffmpeg";
    "/opt/bin/ffmpeg" ].

(** [for path in fallback_paths: if ...: return path] *)
Fixpoint first_executable (m : Machine) (paths : list string)
    : option string :=
  match paths with
  | [] => None
  | path :: rest =>
      if executable m path then Some path else first_executable m rest
  end.

(** [get_ffmpeg_path] *)
Definition get_ffmpeg_path (m : Machine) : string :=
  if PyStr.truthy_opt (which_ffmpeg m) then "ffmpeg"
  else
    match first_executable m fallback_paths with
    | Some path => path
    | None => "ffmpeg"
    end.

(** [get_ffmpeg_path_or_none] *)
Definition get_ffmpeg_path_or_none (m : Machine) : option string :=
  let path := get_ffmpeg_path m in
  if String.eqb path "ffmpeg"
  then if PyStr.truthy_opt (which_ffmpeg m) then Some path else None
  else if executable m path then Some path else None.

(** The Docker image: nothing on the PATH, pyffmpeg's binary in
    place. *)
Definition docker_machine : Machine :=
  {| which_ffmpeg := None;
     executable := fun p => String.eqb p "/root/.pyffmpeg/bin/ffmpeg" |}.

End FFmpeg.

(* ===================================================================== *)
(** * Part II: properties                                                 *)
(* ===================================================================== *)

(** ** Trimming and emptiness *)
Module RespondProps.
Import Components PyStr Respond.

Lemma lstrip_empty_iff (s : string) :
  lstrip s = EmptyString <-> all_space s = true.
Proof.
  induction s as [|c s IH]; simpl.
  - split; reflexivity.
  - destruct (isspace c); simpl.
    + exact IH.
    + split; discriminate.
Qed.

Lemma rstrip_empty_iff (s : string) :
  rstrip s = EmptyString <-> all_space s = true.
Proof.
  induction s as [|c s IH]; simpl.
  - split; reflexivity.
  - destruct (rstrip s) as [|d r] eqn:E.
    + destruct (isspace c); simpl.
      * split; intros _; [apply IH|]; reflexivity.
      * split; discriminate.
    + split; [discriminate|].
      intros H. apply andb_true_iff in H as [_ H].
      apply IH in H. discriminate.
Qed.

(** What [lstrip] leaves is empty or starts with a character that is not
    whitespace. *)
Lemma lstrip_head (s : string) :
  match lstrip s with
  | EmptyString => True
  | String c _ => isspace c = false
  end.
Proof.
  induction s as [|c s IH]; simpl; [exact I|].
  destruct (isspace c) eqn:E; [exact IH|exact E].
Qed.

Lemma strip_empty_iff (s : string) :
  strip s = EmptyString <-> all_space s = true.
Proof.
  unfold strip. rewrite rstrip_empty_iff, <- (lstrip_empty_iff s).
  pose proof (lstrip_head s) as H.
  destruct (lstrip s) as [|c r]; simpl.
  - split; reflexivity.
  - rewrite H. simpl. split; discriminate.
Qed.

Lemma length_zero_iff (s : string) :
  String.length s = 0 <-> s = EmptyString.
Proof. destruct s; simpl; split; congruence. Qed.

(** The emptiness test in terms of the text alone: a [Plain] is empty
    exactly when every character of its text is whitespace. *)
Lemma is_empty_plain_all_space (t : string) :
  _is_empty_component (Plain t) = all_space t.
Proof.
  simpl. apply eq_true_iff_eq.
  rewrite Nat.eqb_eq, length_zero_iff. apply strip_empty_iff.
Qed.

(** C2.  [_is_empty_component (Plain t)] holds exactly when the trimmed
    text [t] has length zero, that is, when [t] holds nothing but
    whitespace; it holds for the empty text and for three spaces, not for
    "x"; and it is false for every component of another kind (Image,
    File, Reply, At), the test's [Reply] among them. *)
Theorem is_empty_component_spec :
  (forall t : string,
      _is_empty_component (Plain t) = true <-> String.length (strip t) = 0)
  /\ (forall t : string, _is_empty_component (Plain t) = all_space t)
  /\ _is_empty_component (Plain "") = true
  /\ _is_empty_component (Plain "   ") = true
  /\ _is_empty_component (Plain "x") = false
  /\ _is_empty_component (Plain "Hello") = false
  /\ (forall f, _is_empty_component (Image f) = false)
  /\ (forall n, _is_empty_component (File n) = false)
  /\ (forall i s, _is_empty_component (Reply i s) = false)
  /\ (forall q, _is_empty_component (At q) = false)
  /\ _is_empty_component (Reply "123" "456") = false.
Proof.
  split.
  { intros t. simpl. apply Nat.eqb_eq. }
  split.
  { exact is_empty_plain_all_space. }
  repeat split; reflexivity.
Qed.

(** ** The assembler's loop *)

Section Loop.
Variable is_empty : Component -> bool.
Variable decorated_comps : MessageChain.

Local Abbreviation step := (segment_step is_empty decorated_comps).
Local Abbreviation kept := (List.filter (fun c => negb (is_empty c))).

(** Once the decoration is used, every component that is not empty adds
    the message holding it alone. *)
Lemma loop_after_decoration (comps : MessageChain) (sent : list MessageChain) :
  fold_left step comps (sent, true)
  = (sent ++ map (fun x => [x]) (kept comps), true).
Proof.
  revert sent. induction comps as [|c comps IH]; intros sent; simpl.
  - now rewrite app_nil_r.
  - destruct (is_empty c); simpl.
    + apply IH.
    + rewrite IH. now rewrite <- app_assoc.
Qed.

(** Before it is used, the loop adds what the contract says. *)
Lemma loop_before_decoration (comps : MessageChain) (sent : list MessageChain) :
  fst (fold_left step comps (sent, false))
  = sent ++ expected_segments is_empty decorated_comps comps.
Proof.
  revert sent. unfold expected_segments.
  induction comps as [|c comps IH]; intros sent; simpl.
  - now rewrite app_nil_r.
  - destruct (is_empty c); simpl.
    + apply IH.
    + rewrite loop_after_decoration. simpl. now rewrite <- app_assoc.
Qed.

Lemma send_segments_expected (comps : MessageChain) :
  send_segments is_empty decorated_comps comps
  = expected_segments is_empty decorated_comps comps.
Proof. unfold send_segments. now rewrite loop_before_decoration. Qed.

(** One message per component that is not empty. *)
Lemma send_segments_length (comps : MessageChain) :
  length (send_segments is_empty decorated_comps comps) = length (kept comps).
Proof.
  rewrite send_segments_expected. unfold expected_segments.
  destruct (kept comps); simpl; [reflexivity|].
  now rewrite length_map.
Qed.

(** Read in order, the messages hold the decoration once, in front, and
    then the components that are not empty, in their original order. *)
Lemma send_segments_concat (comps : MessageChain) :
  concat (send_segments is_empty decorated_comps comps)
  = match kept comps with
    | [] => []
    | _ :: _ => decorated_comps ++ kept comps
    end.
Proof.
  rewrite send_segments_expected. unfold expected_segments.
  destruct (kept comps) as [|c rest]; simpl; [reflexivity|].
  rewrite <- app_assoc. simpl. f_equal. f_equal.
  induction rest as [|x rest IH]; simpl; [reflexivity|].
  now rewrite IH.
Qed.

End Loop.

(** C1.  Whatever the emptiness test, the loop sends the components that
    are not empty, in their original order, one message each: the first
    of them behind the decoration components, every later one alone; and
    for the segments [Plain ""], [Plain "Hello"], [Plain "world!"] with
    one [Reply] as decoration, two messages are sent:
    [Reply; Plain "Hello"] and [Plain "world!"]. *)
Theorem segmented_reply_contract :
  (forall (is_empty : Component -> bool) (decorated_comps comps : MessageChain),
      send_segments is_empty decorated_comps comps
      = match List.filter (fun c => negb (is_empty c)) comps with
        | [] => []
        | c :: rest => (decorated_comps ++ [c]) :: map (fun x => [x]) rest
        end)
  /\ send_segments _is_empty_component
       [Reply "original" "user123"]
       [Plain ""; Plain "Hello"; Plain "world!"]
     = [ [Reply "original" "user123"; Plain "Hello"]; [Plain "world!"] ].
Proof.
  split.
  - intros is_empty decorated_comps comps.
    apply send_segments_expected.
  - reflexivity.
Qed.

End RespondProps.

(** ** Regular expressions: the matcher finds exactly the matches *)
Module ReProps.
Import Re.









(** *** Literal patterns *)













(** Patterns that are not literals: a wildcard, an anchor at the end,
    an alternation, a counted repetition and a class. *)
Example regex_keywords :
  re_search "a.c" "xabcx" = Some true
  /\ re_search "a.c" "a.c" = Some true
  /\ re_search "a.c" "ac" = Some false
  /\ re_search "TEST$" "a TEST" = Some true
  /\ re_search "TEST$" "TEST$" = Some false
  /\ re_search "(foo|bar)" "rebar" = Some true
  /\ re_search "(foo|bar)" "fo|ba" = Some false
  /\ re_search "(foo|bar)" "(foo|bar)" = Some true
  /\ re_search "x{3}" "xxx" = Some true
  /\ re_search "x{3}" "x{3}" = Some false
  /\ re_search "[0-9]+ USD" "pay 100 USD" = Some true
  /\ re_search "色.情" "色中情" = Some true
  /\ re_search "(unclosed" "(unclosed" = None.
Proof. vm_compute. tauto. Qed.

End ReProps.

(** ** The two gates of the pipeline *)
Module PipelineProps.
Import Components Pipeline.

Lemma in_whitelist_false_iff (ctx : PipelineContext) (ev : Event) :
  in_whitelist ctx ev = false <-> ~ In (membership_key ev) (id_whitelist ctx).
Proof.
  unfold in_whitelist. split.
  - intros H Hin.
    assert (existsb (String.eqb (membership_key ev)) (id_whitelist ctx) = true)
      as Ht; [|congruence].
    apply existsb_exists. exists (membership_key ev).
    split; [exact Hin | apply String.eqb_refl].
  - intros Hn. apply not_true_is_false. intros H.
    apply existsb_exists in H as (k & Hin & Hk).
    apply String.eqb_eq in Hk. subst k. contradiction.
Qed.

(** The membership key of the test's events. *)
Example membership_key_example :
  membership_key (create_fake_event "test" "test_sid_wl" false false)
  = "test_platform:FriendMessage:test_sid_wl".
Proof. reflexivity. Qed.

(** The whitelist stage changes nothing but the termination flag and the
    log. *)
Lemma WhitelistCheckStage_frame (ctx : PipelineContext) (ev : Event) :
  let ev' := fst (WhitelistCheckStage ctx ev) in
  result ev' = result ev
  /\ _has_send_oper ev' = _has_send_oper ev
  /\ llm_calls ev' = llm_calls ev
  /\ message_str ev' = message_str ev
  /\ component_sequence ev' = component_sequence ev.
Proof.
  unfold WhitelistCheckStage. simpl.
  destruct (_ && _); simpl; [repeat split|].
  destruct (message_type ev); simpl; [repeat split|].
  destruct (_ || _); simpl; repeat split.
Qed.


(** A listed event passes, awake or not. *)
Lemma WhitelistCheckStage_listed (ctx : PipelineContext) (ev : Event) :
  in_whitelist ctx ev = true -> WhitelistCheckStage ctx ev = (ev, Continue).
Proof.
  intros H. unfold WhitelistCheckStage. simpl. rewrite H.
  rewrite andb_false_r. simpl. now destruct (message_type ev).
Qed.

Section Scheduler.
Variable CommandDispatchStage LLMStage RespondStage : Stage.

Local Abbreviation execute' :=
  (execute CommandDispatchStage LLMStage RespondStage).

(** C3.  When the whitelist is not empty and the event's key
    [platform:messageType:sessionId] is not in it, the whitelist stage
    is the only stage that runs: it sets the termination flag, the
    flag that records a send operation is left as it was (so nothing is
    sent for a fresh event), no LLM call is made, and neither the
    content-safety nor the command stage nor any later one is reached,
    whatever those later stages do. *)
Theorem whitelist_denied_stops_propagation
    (ctx : PipelineContext) (ev : Event) :
  id_whitelist ctx <> [] ->
  ~ In (membership_key ev) (id_whitelist ctx) ->
  snd (execute' ctx ev) = [WhitelistCheckStage_k]
  /\ termination_flag (fst (execute' ctx ev)) = true
  /\ _has_send_oper (fst (execute' ctx ev)) = _has_send_oper ev
  /\ llm_calls (fst (execute' ctx ev)) = llm_calls ev
  /\ result (fst (execute' ctx ev)) = result ev
  /\ ~ In CommandDispatchStage_k (snd (execute' ctx ev)).
Proof.
  intros Hne Habs. apply in_whitelist_false_iff in Habs.
  unfold execute, stages. simpl. unfold WhitelistCheckStage.
  rewrite Habs. destruct (id_whitelist ctx) as [|k l]; [contradiction|].
  simpl. repeat split; try reflexivity.
  intros [H|[]]. discriminate.
Qed.




End Scheduler.

(** C3 at the test's event: a private message "test" in the session
    that is not in the whitelist. *)
Lemma whitelist_denied_stops_propagation_witness :
  let ev := create_fake_event "test" "test_sid" false false in
  let r := execute sample_CommandDispatchStage sample_LLMStage
                   sample_RespondStage test_config ev in
  id_whitelist test_config <> []
  /\ ~ In (membership_key ev) (id_whitelist test_config)
  /\ snd r = [WhitelistCheckStage_k]
  /\ termination_flag (fst r) = true
  /\ _has_send_oper (fst r) = false
  /\ ~ In CommandDispatchStage_k (snd r).
Proof.
  assert (id_whitelist test_config <> []) as H1 by discriminate.
  assert (~ In (membership_key
                  (create_fake_event "test" "test_sid" false false))
               (id_whitelist test_config)) as H2.
  { apply in_whitelist_false_iff. reflexivity. }
  pose proof (whitelist_denied_stops_propagation
                sample_CommandDispatchStage sample_LLMStage sample_RespondStage
                test_config (create_fake_event "test" "test_sid" false false)
                H1 H2) as (R1 & R2 & R3 & _ & _ & R6).
  repeat split; assumption.
Defined.



(** The other scenarios of the test's configuration: the built-in
    keyword is rejected, an ordinary message reaches the LLM stage once
    and is answered. *)
Example builtin_keyword_rejected :
  result (fst (execute sample_CommandDispatchStage sample_LLMStage
                       sample_RespondStage test_config
                       (create_fake_event "色情" "test_sid_wl" false false)))
  = Some SafetyRejected.
Proof. reflexivity. Qed.

Example ordinary_message_answered :
  let r := execute sample_CommandDispatchStage sample_LLMStage
                   sample_RespondStage test_config
                   (create_fake_event "just reply me `OK`" "test_sid_wl"
                                      false false) in
  llm_stage_runs (snd r) = 1
  /\ result (fst r) = Some (LLM_RESULT "OK")
  /\ _has_send_oper (fst r) = true.
Proof. repeat split; reflexivity. Qed.

End PipelineProps.

(** ** The Misskey sender *)
Module MisskeyProps.
Import Components PyStr Misskey.

(** One iteration only ever adds text parts. *)
Lemma collect_step_grows (c : Component) (parts : list string)
    (rid : option string) :
  exists more rid', collect (parts, rid) c = (parts ++ more, rid').
Proof.
  destruct c; simpl; eauto.
  exists [], (Some id). now rewrite app_nil_r.
Qed.

Lemma collect_parts_grow (chain : MessageChain)
    (st : list string * option string) :
  exists more, fst (fold_left collect chain st) = fst st ++ more.
Proof.
  revert st. induction chain as [|c chain IH]; intros [parts rid].
  - exists []. simpl. now rewrite app_nil_r.
  - cbn [fold_left].
    destruct (collect_step_grows c parts rid) as (m & rid' & Hc).
    rewrite Hc. destruct (IH (parts ++ m, rid')) as [m' Hm'].
    rewrite Hm'. simpl. rewrite <- app_assoc. eauto.
Qed.

(** A chain yields no text part exactly when it holds nothing but
    [Reply] components. *)
Lemma no_text_parts_iff (chain : MessageChain) :
  fst (collect_all chain) = []
  <-> Forall (fun c => match c with Reply _ _ => True | _ => False end) chain.
Proof.
  unfold collect_all. generalize (@None string).
  induction chain as [|c chain IH]; intros rid; simpl.
  - split; [constructor|reflexivity].
  - split.
    + intros H. destruct c; simpl in H;
        try (match type of H with
             | fst (fold_left collect chain ?st) = [] =>
                 destruct (collect_parts_grow chain st) as [m Hm];
                 rewrite Hm in H; simpl in H; discriminate
             end).
      constructor; [exact I|]. now apply (IH (Some id)).
    + intros H. inversion H as [|c' l' Hc Hl]; subst.
      destruct c; try contradiction. simpl. now apply IH.
Qed.

(** The part of the guarantee that the guard gives: a chain that yields
    no text part (an empty one, or one of [Reply]s only) posts nothing,
    with or without an adapter. *)
Lemma send_without_text_parts_posts_nothing
    (self : MisskeyPlatformEvent) (message : MessageChain) :
  fst (collect_all message) = [] -> posted_texts (send self message) = [].
Proof.
  intros H. unfold send. destruct (adapter self) as [ad|]; [|reflexivity].
  destruct (collect_all message) as [parts rid]. simpl in H. subst parts.
  reflexivity.
Qed.

Lemma posted_texts_send_note (ad : MisskeyPlatformAdapter) (t : string)
    (rid : option string) (v : string) :
  posted_texts (snd (send_note ad t rid v)) = [t].
Proof. unfold send_note. destruct (network ad _ _); reflexivity. Qed.

Lemma posted_texts_app (l1 l2 : list Effect) :
  posted_texts (l1 ++ l2) = posted_texts l1 ++ posted_texts l2.
Proof. unfold posted_texts. apply flat_map_app. Qed.

(** Whenever there is a text part, one note is posted, and its text is
    the parts joined, whatever they hold. *)
Lemma send_with_text_parts_posts_join
    (self : MisskeyPlatformEvent) (ad : MisskeyPlatformAdapter)
    (message : MessageChain) :
  adapter self = Some ad ->
  fst (collect_all message) <> [] ->
  posted_texts (send self message) = [join (fst (collect_all message))].
Proof.
  intros Had Hne. unfold send. rewrite Had.
  destruct (collect_all message) as [parts rid]. simpl in *.
  destruct parts as [|p parts]; [contradiction|].
  destruct (send_note _ _ _ _) as [result effects] eqn:E.
  rewrite !posted_texts_app.
  change effects with (snd (result, effects)). rewrite <- E.
  rewrite posted_texts_send_note.
  destruct (truthy_dict result); reflexivity.
Qed.

(** What [send] posts, in every case: one note holding the joined text
    parts when there is an adapter and at least one text part, and
    nothing otherwise. *)
Theorem send_posts_exactly
    (self : MisskeyPlatformEvent) (message : MessageChain) :
  posted_texts (send self message)
  = match adapter self, fst (collect_all message) with
    | Some _, _ :: _ => [join (fst (collect_all message))]
    | _, _ => []
    end.
Proof.
  destruct (adapter self) as [ad|] eqn:Had.
  - destruct (fst (collect_all message)) as [|part parts] eqn:Hp.
    + now apply send_without_text_parts_posts_nothing.
    + rewrite <- Hp. apply (send_with_text_parts_posts_join self ad).
      * exact Had.
      * rewrite Hp. discriminate.
  - unfold send. now rewrite Had.
Qed.

(** C5, where the code departs from the claim: for the chain that holds
    one [Plain] with the empty text the list of text parts is not empty,
    so the guard lets it through and a note whose text is empty is
    posted; the same happens for a text of spaces. *)
Theorem send_posts_blank_note :
  let self := {| adapter := Some accepting_adapter; original_note := None |} in
  posted_texts (send self [Plain ""]) = [""]
  /\ blank "" = true
  /\ posted_texts (send self [Reply "n0" "u"; Plain "   "]) = ["   "]
  /\ blank "   " = true.
Proof. repeat split; reflexivity. Qed.

End MisskeyProps.

(** ** The SQLite conversation store *)
Module SQLiteProps.
Import SQLite.

(** The connection can be had: it is open, or the file can be opened. *)
Definition available (db : SQLiteDatabase) : bool :=
  connected db || openable db.

(** The key of a row is the pair [(u, c)]. *)
Definition has_key (u c : string) (r : Row) : Prop :=
  user_id r = Some u /\ cid r = Some c.

Lemma key_matches_iff (u c : string) (r : Row) :
  key_matches u c r = true <-> has_key u c r.
Proof.
  unfold key_matches, has_key.
  rewrite andb_true_iff, !bool_decide_eq_true. reflexivity.
Qed.

Lemma ensure_connection_ok (db : SQLiteDatabase) :
  available db = true ->
  exists db',
    _ensure_connection db = (Ok tt, db')
    /\ webchat_conversation db' = webchat_conversation db
    /\ connected db' = true
    /\ openable db' = openable db.
Proof.
  unfold available, _ensure_connection. intros H.
  destruct (connected db) eqn:Ec.
  - exists db. auto.
  - simpl in H. rewrite H. eexists. split; [reflexivity|]. auto.
Qed.

Lemma ensure_connection_raises (db : SQLiteDatabase) :
  available db = false ->
  _ensure_connection db
  = (Raise (OperationalError "unable to open database file"), db).
Proof.
  unfold available, _ensure_connection. intros H.
  apply orb_false_iff in H as [-> ->]. reflexivity.
Qed.

Lemma read_table_ok (db : SQLiteDatabase) (rows : list Row) :
  webchat_conversation db = Some rows -> read_table db = (Ok rows, db).
Proof. unfold read_table. now intros ->. Qed.

(** *** Lookup *)

(** C6.  On a database that can be reached and holds the table,
    [get_conversation_by_user_id user_id cid] returns, and leaves the
    table as it was; it returns [None] exactly when no stored row has the
    pair [(user_id, cid)], and otherwise the stored conversation with
    that pair (the first such row of the table): a [Conversation] whose
    [user_id] and [cid] are the pair asked for and whose [history],
    [created_at], [updated_at], [title] and [persona_id] are those of
    the row. *)
Theorem get_conversation_by_user_id_spec
    (db : SQLiteDatabase) (rows : list Row) (u c : string) :
  available db = true ->
  webchat_conversation db = Some rows ->
  exists res db',
    get_conversation_by_user_id u c db = (Ok res, db')
    /\ webchat_conversation db' = Some rows
    /\ (res = None <-> forall r, In r rows -> ~ has_key u c r)
    /\ (forall conv, res = Some conv ->
          exists r before after,
            rows = before ++ r :: after
            /\ has_key u c r
            /\ (forall r0, In r0 before -> ~ has_key u c r0)
            /\ conv_user_id conv = Some u
            /\ conv_cid conv = Some c
            /\ conv_history conv = history r
            /\ conv_created_at conv = created_at r
            /\ conv_updated_at conv = updated_at r
            /\ conv_title conv = title r
            /\ conv_persona_id conv = persona_id r).
Proof.
  intros Hav Htab.
  destruct (ensure_connection_ok db Hav) as (db1 & He & Ht1 & _ & _).
  rewrite Htab in Ht1.
  unfold get_conversation_by_user_id, bind. rewrite He.
  rewrite (read_table_ok _ _ Ht1).
  assert (forall l : list Row,
             match List.filter (key_matches u c) l with
             | [] => forall r, In r l -> ~ has_key u c r
             | x :: _ =>
                 exists before after,
                   l = before ++ x :: after /\ has_key u c x
                   /\ (forall r0, In r0 before -> ~ has_key u c r0)
             end) as Hfirst.
  { induction l as [|x l IH]; simpl.
    - intros r [].
    - destruct (key_matches u c x) eqn:Ek.
      + exists [], l. split; [reflexivity|].
        split; [now apply key_matches_iff|]. intros r0 [].
      + assert (~ has_key u c x) as Hx.
        { rewrite <- key_matches_iff. congruence. }
        destruct (List.filter (key_matches u c) l) as [|y ys].
        * intros r [<-|Hin]; auto.
        * destruct IH as (before & after & -> & Hy & Hb).
          exists (x :: before), after. repeat split; try apply Hy.
          intros r0 [<-|Hin]; auto. }
  specialize (Hfirst rows).
  destruct (List.filter (key_matches u c) rows) as [|x xs].
  - exists None, db1.
    split; [reflexivity|]. split; [exact Ht1|]. split.
    + split; [intros _; exact Hfirst | reflexivity].
    + discriminate.
  - destruct Hfirst as (before & after & Hrows & Hx & Hb).
    exists (Some (Conversation_of_row x)), db1.
    split; [reflexivity|]. split; [exact Ht1|]. split.
    + split; [discriminate|]. intros Hnone. exfalso.
      apply (Hnone x); [|exact Hx].
      rewrite Hrows. apply in_or_app. right. now left.
    + intros conv [= <-]. exists x, before, after.
      split; [exact Hrows|]. split; [exact Hx|]. split; [exact Hb|].
      destruct Hx as [Hu Hc]. simpl.
      split; [exact Hu|]. split; [exact Hc|]. repeat split.
Qed.

Lemma get_conversation_by_user_id_witness :
  available sample_db = true
  /\ webchat_conversation sample_db = Some sample_rows
  /\ fst (get_conversation_by_user_id "webchat:FriendMessage:c" "c3"
             sample_db)
     = Ok (Some {| conv_user_id := Some "webchat:FriendMessage:c";
                   conv_cid := Some "c3";
                   conv_history := Some "[]";
                   conv_created_at := Some 20%Z;
                   conv_updated_at := Some 20%Z;
                   conv_title := None;
                   conv_persona_id := None |})
  /\ exists res db',
       get_conversation_by_user_id "webchat:FriendMessage:c" "c3" sample_db
       = (Ok res, db')
       /\ webchat_conversation db' = Some sample_rows
       /\ (res = None <->
           forall r, In r sample_rows ->
                     ~ has_key "webchat:FriendMessage:c" "c3" r)
       /\ (forall conv, res = Some conv ->
             exists r before after,
               sample_rows = before ++ r :: after
               /\ has_key "webchat:FriendMessage:c" "c3" r
               /\ (forall r0, In r0 before ->
                              ~ has_key "webchat:FriendMessage:c" "c3" r0)
               /\ conv_user_id conv = Some "webchat:FriendMessage:c"
               /\ conv_cid conv = Some "c3"
               /\ conv_history conv = history r
               /\ conv_created_at conv = created_at r
               /\ conv_updated_at conv = updated_at r
               /\ conv_title conv = title r
               /\ conv_persona_id conv = persona_id r).
Proof.
  split; [reflexivity|]. split; [reflexivity|]. split; [reflexivity|].
  apply (get_conversation_by_user_id_spec sample_db sample_rows
           "webchat:FriendMessage:c" "c3"); reflexivity.
Defined.

(** The two outcomes on the sample table. *)
Example lookup_found :
  fst (get_conversation_by_user_id "webchat:FriendMessage:c" "c3" sample_db)
  = Ok (Some (Conversation_of_row
                (sample_row "webchat:FriendMessage:c" "c3" 20))).
Proof. reflexivity. Qed.

Example lookup_absent :
  fst (get_conversation_by_user_id "webchat:FriendMessage:c" "c1" sample_db)
  = Ok None.
Proof. reflexivity. Qed.

(** *** Updates *)

(** What an update of the history leaves of a row. *)
Definition only_history_changed (h : string) (now : Z) (r r' : Row) : Prop :=
  history r' = Some h /\ updated_at r' = Some now
  /\ title r' = title r /\ persona_id r' = persona_id r
  /\ created_at r' = created_at r /\ cid r' = cid r /\ user_id r' = user_id r.

Definition only_title_changed (t : string) (r r' : Row) : Prop :=
  title r' = Some t
  /\ history r' = history r /\ updated_at r' = updated_at r
  /\ persona_id r' = persona_id r
  /\ created_at r' = created_at r /\ cid r' = cid r /\ user_id r' = user_id r.

Definition only_persona_id_changed (p : string) (r r' : Row) : Prop :=
  persona_id r' = Some p
  /\ history r' = history r /\ updated_at r' = updated_at r
  /\ title r' = title r
  /\ created_at r' = created_at r /\ cid r' = cid r /\ user_id r' = user_id r.

(** Row by row: a row with the key is related to its new version by
    [change], any other row is unchanged. *)
Definition updated_rows (u c : string) (change : Row -> Row -> Prop)
    (rows rows' : list Row) : Prop :=
  Forall2 (fun r r' => (has_key u c r -> change r r')
                       /\ (~ has_key u c r -> r' = r)) rows rows'.

Lemma exec_update_where (db : SQLiteDatabase) (rows : list Row)
    (u c : string) (set : Row -> Row) :
  available db = true ->
  webchat_conversation db = Some rows ->
  exists db',
    _exec_sql (UPDATE_where u c set) db = (Ok tt, db')
    /\ webchat_conversation db'
       = Some (map (fun r => if key_matches u c r then set r else r) rows).
Proof.
  intros Hav Htab.
  destruct (ensure_connection_ok db Hav) as (db1 & He & Ht1 & _ & _).
  rewrite Htab in Ht1.
  unfold _exec_sql, UPDATE_where, bind. rewrite He.
  rewrite (read_table_ok _ _ Ht1). unfold write_table.
  eexists. split; reflexivity.
Qed.

Lemma map_updated_rows (u c : string) (set : Row -> Row)
    (change : Row -> Row -> Prop) (rows : list Row) :
  (forall r, change r (set r)) ->
  updated_rows u c change rows
    (map (fun r => if key_matches u c r then set r else r) rows).
Proof.
  intros Hset. unfold updated_rows.
  induction rows as [|r rows IH]; simpl; constructor; [|exact IH].
  destruct (key_matches u c r) eqn:Ek.
  - split; [intros _; apply Hset|].
    intros Hn. exfalso. apply Hn. now apply key_matches_iff.
  - split; [|reflexivity].
    intros Hk. apply key_matches_iff in Hk. congruence.
Qed.

(** C8.  On a database that can be reached and holds the table, each of
    the three updates returns and rewrites the table row by row (same
    rows, same order): [update_conversation] sets [history] and
    [updated_at] of the rows with the pair [(user_id, cid)] and leaves
    their [title], [persona_id], [created_at], [cid] and [user_id];
    [update_conversation_title] sets only [title];
    [update_conversation_persona_id] sets only [persona_id]; and every
    row with another pair is left as it was. *)
Theorem updates_touch_only_their_columns
    (db : SQLiteDatabase) (rows : list Row) (now : Z)
    (u c h t p : string) :
  available db = true ->
  webchat_conversation db = Some rows ->
  int64 now = true ->
  (exists db' rows',
      update_conversation now u c h db = (Ok tt, db')
      /\ webchat_conversation db' = Some rows'
      /\ updated_rows u c (only_history_changed h now) rows rows')
  /\ (exists db' rows',
        update_conversation_title u c t db = (Ok tt, db')
        /\ webchat_conversation db' = Some rows'
        /\ updated_rows u c (only_title_changed t) rows rows')
  /\ (exists db' rows',
        update_conversation_persona_id u c p db = (Ok tt, db')
        /\ webchat_conversation db' = Some rows'
        /\ updated_rows u c (only_persona_id_changed p) rows rows').
Proof.
  intros Hav Htab Hnow. repeat split.
  - destruct (ensure_connection_ok db Hav) as (db1 & He & Ht1 & _ & _).
    rewrite Htab in Ht1.
    unfold update_conversation, _exec_sql, UPDATE_where, bind, bind_int.
    rewrite He, (read_table_ok _ _ Ht1), Hnow. unfold ret.
    rewrite (read_table_ok _ _ Ht1). unfold write_table.
    eexists _, _. split; [reflexivity|]. split; [reflexivity|].
    apply map_updated_rows. intros r. repeat split.
  - destruct (exec_update_where db rows u c (set_title t) Hav Htab)
      as (db' & Hrun & Htab').
    exists db'. eexists. split; [exact Hrun|]. split; [exact Htab'|].
    apply map_updated_rows. intros r. repeat split.
  - destruct (exec_update_where db rows u c (set_persona_id p) Hav Htab)
      as (db' & Hrun & Htab').
    exists db'. eexists. split; [exact Hrun|]. split; [exact Htab'|].
    apply map_updated_rows. intros r. repeat split.
Qed.

Lemma updates_touch_only_their_columns_witness :
  available sample_db = true
  /\ webchat_conversation sample_db = Some sample_rows
  /\ int64 1700000000 = true
  /\ exists db' rows',
       update_conversation 1700000000 "webchat:FriendMessage:c" "c3" "[1]"
         sample_db = (Ok tt, db')
       /\ webchat_conversation db' = Some rows'
       /\ updated_rows "webchat:FriendMessage:c" "c3"
            (only_history_changed "[1]" 1700000000) sample_rows rows'.
Proof.
  split; [reflexivity|]. split; [reflexivity|]. split; [reflexivity|].
  apply (updates_touch_only_their_columns sample_db sample_rows 1700000000
           "webchat:FriendMessage:c" "c3" "[1]" "t" "p");
    reflexivity.
Defined.

(** The table after an update of the third sample row. *)
Example update_conversation_example :
  webchat_conversation
    (snd (update_conversation 1700000000 "webchat:FriendMessage:c" "c3" "[1]"
            sample_db))
  = Some [ sample_row "test_platform:FriendMessage:a" "c1" 10;
           sample_row "test_platform:GroupMessage:b" "c2" 30;
           {| user_id := Some "webchat:FriendMessage:c"; cid := Some "c3";
              history := Some "[1]"; created_at := Some 20%Z;
              updated_at := Some 1700000000%Z;
              title := None; persona_id := None |} ].
Proof. reflexivity. Qed.

(** *** Ordering *)

(** [a] comes no later than [b] in [ORDER BY updated_at DESC]. *)
Definition desc (a b : Row) : Prop :=
  sql_ge (updated_at a) (updated_at b) = true.

Lemma sql_ge_total (a b : option Z) :
  sql_ge a b = false -> sql_ge b a = true.
Proof.
  destruct a as [x|], b as [y|]; simpl; try congruence.
  rewrite Z.leb_gt, Z.leb_le. lia.
Qed.

Lemma insert_desc_perm (r : Row) (l : list Row) :
  Permutation (insert_desc r l) (r :: l).
Proof.
  induction l as [|y l IH]; simpl; [reflexivity|].
  destruct (sql_ge _ _); [reflexivity|].
  rewrite IH. apply perm_swap.
Qed.

Lemma order_by_perm (rows : list Row) :
  Permutation (order_by_updated_at_desc rows) rows.
Proof.
  induction rows as [|r rows IH]; simpl; [reflexivity|].
  rewrite insert_desc_perm. now constructor.
Qed.

Lemma insert_desc_hdrel (a r : Row) (l : list Row) :
  desc a r -> HdRel desc a l -> HdRel desc a (insert_desc r l).
Proof.
  intros Har Hl. destruct l as [|y l]; simpl.
  - now constructor.
  - destruct (sql_ge _ _); constructor; [exact Har|].
    now inversion Hl.
Qed.

Lemma insert_desc_sorted (r : Row) (l : list Row) :
  Sorted desc l -> Sorted desc (insert_desc r l).
Proof.
  induction 1 as [|y l Hs IH Hhd]; simpl.
  - repeat constructor.
  - destruct (sql_ge (updated_at r) (updated_at y)) eqn:E.
    + constructor; [now constructor|]. constructor. exact E.
    + constructor; [exact IH|].
      apply insert_desc_hdrel; [|exact Hhd].
      now apply sql_ge_total.
Qed.

Lemma order_by_sorted (rows : list Row) :
  Sorted desc (order_by_updated_at_desc rows).
Proof.
  induction rows as [|r rows IH]; simpl; [constructor|].
  now apply insert_desc_sorted.
Qed.

Lemma order_by_length (rows : list Row) :
  length (order_by_updated_at_desc rows) = length rows.
Proof. apply Permutation_length, order_by_perm. Qed.

(** *** Listings *)

(** The page of a listing: the entries at positions
    [(page - 1) * page_size] to [(page - 1) * page_size + page_size - 1]
    of the selected rows in descending order of [updated_at]. *)
Definition page_of (selected : Row -> bool) (page page_size : Z)
    (rows : list Row) : list ConversationDict :=
  map row_dict
      (take (Z.to_nat page_size)
            (drop (Z.to_nat ((page - 1) * page_size))
                  (order_by_updated_at_desc (List.filter selected rows)))).

Lemma limit_offset_nonneg {A} (limit offset : Z) (l : list A) :
  (0 <= limit)%Z ->
  limit_offset limit offset l
  = take (Z.to_nat limit) (drop (Z.to_nat offset) l).
Proof.
  intros H. unfold limit_offset.
  destruct (limit <? 0)%Z eqn:E; [|reflexivity].
  apply Z.ltb_lt in E. lia.
Qed.

Lemma page_of_length (selected : Row -> bool) (page page_size : Z)
    (rows : list Row) :
  (0 <= page_size)%Z ->
  (Z.of_nat (length (page_of selected page page_size rows)) <= page_size)%Z.
Proof.
  intros H. unfold page_of. rewrite length_map, length_take. lia.
Qed.

(** The entry at position [i] of a page is the entry at position
    [offset + i] of the whole ordered list. *)
Lemma page_of_lookup (selected : Row -> bool) (page page_size : Z)
    (rows : list Row) (i : nat) :
  i < Z.to_nat page_size ->
  page_of selected page page_size rows !! i
  = row_dict <$>
      (order_by_updated_at_desc (List.filter selected rows)
         !! (Z.to_nat ((page - 1) * page_size) + i)).
Proof.
  intros Hi. unfold page_of.
  rewrite list_lookup_fmap, lookup_take_lt by exact Hi.
  now rewrite lookup_drop.
Qed.

(** The body of both listings when nothing fails. *)
Lemma count_and_page_ok (db : SQLiteDatabase) (rows : list Row)
    (selected : Row -> bool) (page page_size : Z) :
  webchat_conversation db = Some rows ->
  (0 <= page_size)%Z ->
  int64 page_size = true ->
  int64 ((page - 1) * page_size) = true ->
  count_and_page selected page page_size db
  = (Ok (page_of selected page page_size rows,
         Z.of_nat (length (List.filter selected rows))), db).
Proof.
  intros Htab Hps H1 H2.
  unfold count_and_page, bind, bind_int, read_table, ret.
  rewrite Htab, H1, H2. cbv beta iota. rewrite Htab. cbv beta iota.
  rewrite limit_offset_nonneg by exact Hps. reflexivity.
Qed.

(** The body never changes the database, and what it returns when it
    does not raise is a pair. *)
Lemma count_and_page_db (db : SQLiteDatabase)
    (selected : Row -> bool) (page page_size : Z) :
  snd (count_and_page selected page page_size db) = db.
Proof.
  unfold count_and_page, bind, bind_int, read_table, ret, raise.
  destruct (webchat_conversation db) eqn:E; [|reflexivity].
  cbv beta iota. rewrite E. cbv beta iota.
  destruct (int64 page_size); [|reflexivity].
  destruct (int64 _); reflexivity.
Qed.

Lemma filter_true {A} (l : list A) : List.filter (fun _ => true) l = l.
Proof. induction l as [|x l IH]; simpl; [reflexivity|]. now rewrite IH. Qed.

Section Listings.
Variable unicode_escape : string -> string.

(** C7, as amended.  On a database that can be reached and holds the
    table, for every page >= 1 and every page size >= 0 (the page size
    and the offset [(page - 1) * page_size] being 64-bit integers),
    [get_all_conversations] returns [(items, total)] where [total] is the
    number of stored rows, whatever the page and the page size, and
    [items] are the entries at positions [(page - 1) * page_size] to
    [(page - 1) * page_size + page_size - 1] of all rows in descending
    order of [updated_at], at most [page_size] of them;
    [get_filtered_conversations] returns the same of the rows that the
    filters select. *)
Theorem listing_contract
    (db : SQLiteDatabase) (rows : list Row) (page page_size : Z)
    (platforms message_types : option (list string))
    (search_query : option string)
    (exclude_ids exclude_platforms : option (list string)) :
  available db = true ->
  webchat_conversation db = Some rows ->
  (1 <= page)%Z ->
  (0 <= page_size)%Z ->
  int64 page_size = true ->
  int64 ((page - 1) * page_size) = true ->
  let all := fun _ : Row => true in
  let chosen :=
    selected_by (build_where_clauses unicode_escape platforms message_types
                   search_query exclude_ids exclude_platforms) in
  fst (get_all_conversations page page_size db)
  = Ok (page_of all page page_size rows, Z.of_nat (length rows))
  /\ fst (get_filtered_conversations unicode_escape page page_size platforms
            message_types search_query exclude_ids exclude_platforms db)
     = Ok (page_of chosen page page_size rows,
           Z.of_nat (length (List.filter chosen rows)))
  /\ (forall selected : Row -> bool,
        (Z.of_nat (length (page_of selected page page_size rows))
         <= page_size)%Z
        /\ (forall i : nat,
              i < Z.to_nat page_size ->
              page_of selected page page_size rows !! i
              = row_dict <$>
                  (order_by_updated_at_desc (List.filter selected rows)
                     !! (Z.to_nat ((page - 1) * page_size) + i)))
        /\ Permutation (order_by_updated_at_desc (List.filter selected rows))
                       (List.filter selected rows)
        /\ Sorted desc (order_by_updated_at_desc (List.filter selected rows)))
  /\ webchat_conversation (snd (get_all_conversations page page_size db))
     = Some rows.
Proof.
  intros Hav Htab Hpage Hps H1 H2 all chosen.
  destruct (ensure_connection_ok db Hav) as (db1 & He & Ht1 & _ & _).
  rewrite Htab in Ht1.
  unfold get_all_conversations, get_filtered_conversations, bind, try_except.
  rewrite He.
  rewrite !(count_and_page_ok db1 rows _ page page_size Ht1 Hps H1 H2).
  simpl. subst all. rewrite filter_true.
  split; [reflexivity|]. split; [reflexivity|]. split; [|exact Ht1].
  intros selected. split; [now apply page_of_length|].
  split; [intros i Hi; now apply page_of_lookup|].
  split; [apply order_by_perm | apply order_by_sorted].
Qed.

(** The part of the error handling that works: once the connection is
    there, neither listing raises; a failure inside the [try] block (no
    table, a page size or an offset that does not fit 64 bits) gives
    [([], 0)]. *)
Lemma listing_inside_try_never_raises
    (db : SQLiteDatabase) (page page_size : Z)
    (platforms message_types : option (list string))
    (search_query : option string)
    (exclude_ids exclude_platforms : option (list string)) :
  available db = true ->
  (exists r, fst (get_all_conversations page page_size db) = Ok r)
  /\ (exists r,
        fst (get_filtered_conversations unicode_escape page page_size
               platforms message_types search_query exclude_ids
               exclude_platforms db) = Ok r)
  /\ (webchat_conversation db = None
       \/ int64 page_size = false
       \/ int64 ((page - 1) * page_size) = false ->
       fst (get_all_conversations page page_size db) = Ok ([], 0%Z)
       /\ fst (get_filtered_conversations unicode_escape page page_size
                 platforms message_types search_query exclude_ids
                 exclude_platforms db) = Ok ([], 0%Z)).
Proof.
  intros Hav.
  destruct (ensure_connection_ok db Hav) as (db1 & He & Ht1 & _ & _).
  unfold get_all_conversations, get_filtered_conversations, bind, try_except.
  rewrite He.
  unfold count_and_page, bind, bind_int, read_table, ret, raise.
  rewrite Ht1.
  destruct (webchat_conversation db) as [rows|] eqn:E; cbv beta iota.
  - rewrite Ht1. cbv beta iota.
    destruct (int64 page_size); cbv beta iota.
    + destruct (int64 ((page - 1) * page_size)); cbv beta iota.
      * split; [eauto|]. split; [eauto|].
        intros [H|[H|H]]; discriminate.
      * split; [eauto|]. split; [eauto|]. auto.
    + split; [eauto|]. split; [eauto|]. auto.
  - split; [eauto|]. split; [eauto|]. auto.
Qed.

End Listings.

(** [ORDER BY updated_at DESC] rearranges the rows and puts them in
    descending order of [updated_at], rows without one last. *)
Theorem order_by_updated_at_desc_sorts (rows : list Row) :
  Permutation (order_by_updated_at_desc rows) rows
  /\ Sorted desc (order_by_updated_at_desc rows)
  /\ length (order_by_updated_at_desc rows) = length rows.
Proof.
  split; [apply order_by_perm|].
  split; [apply order_by_sorted | apply order_by_length].
Qed.

(** Every outcome of [get_all_conversations]: it raises when the
    connection cannot be had; with the connection it returns the page
    and the total when the table is there and both parameters fit
    64 bits, and [([], 0)] otherwise. *)
Theorem get_all_conversations_outcome
    (db : SQLiteDatabase) (page page_size : Z) :
  fst (get_all_conversations page page_size db)
  = if available db
    then
      match webchat_conversation db with
      | Some rows =>
          if int64 page_size && int64 ((page - 1) * page_size)
          then Ok (map row_dict
                     (limit_offset page_size ((page - 1) * page_size)
                        (order_by_updated_at_desc rows)),
                   Z.of_nat (length rows))
          else Ok ([], 0%Z)
      | None => Ok ([], 0%Z)
      end
    else Raise (OperationalError "unable to open database file").
Proof.
  destruct (available db) eqn:Hav.
  - destruct (ensure_connection_ok db Hav) as (db1 & He & Ht1 & _ & _).
    unfold get_all_conversations, bind, try_except. rewrite He.
    unfold count_and_page, bind, bind_int, read_table, ret, raise.
    rewrite Ht1.
    destruct (webchat_conversation db) as [rows|] eqn:E; cbv beta iota;
      [|reflexivity].
    rewrite Ht1. cbv beta iota.
    destruct (int64 page_size); cbv beta iota; [|reflexivity].
    destruct (int64 ((page - 1) * page_size)); cbv beta iota;
      [|reflexivity].
    simpl. now rewrite filter_true.
  - unfold get_all_conversations, bind.
    now rewrite (ensure_connection_raises db Hav).
Qed.

(** C7 as amended, at the second page of size two of the sample table:
    the one entry left, and the total of three. *)
Lemma listing_contract_witness :
  available sample_db = true
  /\ webchat_conversation sample_db = Some sample_rows
  /\ (1 <= 2)%Z /\ (0 <= 2)%Z
  /\ int64 2 = true /\ int64 ((2 - 1) * 2) = true
  /\ fst (get_all_conversations 2 2 sample_db)
     = Ok ([ row_dict (sample_row "test_platform:FriendMessage:a" "c1" 10) ],
           3%Z)
  /\ fst (get_filtered_conversations (fun q => q) 2 2
            (Some ["test_platform"]) None None None None sample_db)
     = Ok ([], 2%Z).
Proof.
  assert (available sample_db = true) as H1 by reflexivity.
  assert (webchat_conversation sample_db = Some sample_rows) as H2
    by reflexivity.
  assert (1 <= 2)%Z as H3 by lia.
  assert (0 <= 2)%Z as H4 by lia.
  assert (int64 2 = true) as H5 by reflexivity.
  assert (int64 ((2 - 1) * 2) = true) as H6 by reflexivity.
  pose proof (listing_contract (fun q => q) sample_db sample_rows 2 2
                (Some ["test_platform"]) None None None None
                H1 H2 H3 H4 H5 H6) as (R1 & R2 & _).
  repeat split; assumption.
Defined.

(** C7, the claim as written fails for a negative page size: SQLite
    reads [LIMIT -1] as no limit, so page 1 of size -1 of the sample
    table holds all three entries, more than the page size. *)
Lemma negative_page_size_lists_everything :
  let page := 1%Z in
  let page_size := (-1)%Z in
  (1 <= page)%Z
  /\ exists items total,
       fst (get_all_conversations page page_size sample_db) = Ok (items, total)
       /\ length items = 3
       /\ (page_size < Z.of_nat (length items))%Z.
Proof.
  split; [lia|]. eexists _, _.
  split; [vm_compute; reflexivity|]. split; [reflexivity|]. simpl. lia.
Qed.

(** The three pages of size one of the sample table, newest first. *)
Example pages_of_size_one :
  d_cid <$> page_of (fun _ => true) 1 1 sample_rows = ["c2"]
  /\ d_cid <$> page_of (fun _ => true) 2 1 sample_rows = ["c3"]
  /\ d_cid <$> page_of (fun _ => true) 3 1 sample_rows = ["c1"]
  /\ d_title <$> page_of (fun _ => true) 3 1 sample_rows = ["对话 c1"].
Proof. repeat split; reflexivity. Qed.

(** C10, where the code departs from the claim: [_ensure_connection] is
    awaited before the [try] block is entered, so when the database file
    cannot be opened both listings raise instead of returning
    [([], 0)]. *)
Theorem listing_raises_without_connection :
  available unreachable_db = false
  /\ fst (get_all_conversations 1 20 unreachable_db)
     = Raise (OperationalError "unable to open database file")
  /\ (forall unicode_escape : string -> string,
        fst (get_filtered_conversations unicode_escape 1 20
               None None None None None unreachable_db)
        = Raise (OperationalError "unable to open database file")).
Proof. repeat split; reflexivity. Qed.

(** Inside the [try] block the handler does its work: without the table
    the answer is [([], 0)]. *)
Example listing_of_uninitialized_db :
  fst (get_all_conversations 1 20 uninitialized_db) = Ok ([], 0%Z).
Proof. reflexivity. Qed.

End SQLiteProps.

(** ** The JSON plugin storage *)
Module JSONStorageProps.
Module JS := JSONStorage.

Section Laws.
Context {Value : Type} {json : JS.JSON Value}.
Variable PyNone : Value.

Local Abbreviation State := (@JS.State Value).

Lemma deref_lookup (s : State) (data : nat) (d : gmap string Value) :
  JS.objects s !! data = Some d -> JS.deref s data = d.
Proof. unfold JS.deref. now intros ->. Qed.

Lemma deref_valid (s : State) (data : nat) :
  data < length (JS.objects s) ->
  JS.objects s !! data = Some (JS.deref s data).
Proof.
  intros H. apply lookup_lt_is_Some in H as [d Hd].
  now rewrite (deref_lookup _ _ _ Hd).
Qed.

(** A state whose heap extends that of [s], whose files are those of
    [s], and whose cache is that of [s] with [p] bound to a new object
    that holds what [s] stores for [p]. *)
Lemma extended_state (s s1 : State) (p : string)
    (extra : list (gmap string Value)) :
  JS.cache_valid s ->
  JS._data_cache s !! p = None ->
  JS.files s1 = JS.files s ->
  JS.objects s1 = JS.objects s ++ JS.stored p s :: extra ->
  JS._data_cache s1 = <[p := length (JS.objects s)]> (JS._data_cache s) ->
  JS.cache_valid s1 /\ forall q, JS.stored q s1 = JS.stored q s.
Proof.
  intros Hv Hp Hf Ho Hc. split.
  - intros q r. rewrite Hc, Ho, length_app. simpl.
    destruct (decide (p = q)) as [->|Hne].
    + rewrite lookup_insert_eq. intros [= <-]. lia.
    + rewrite lookup_insert_ne by exact Hne.
      intros Hq. apply Hv in Hq. lia.
  - intros q. unfold JS.stored at 1. rewrite Hc.
    destruct (decide (p = q)) as [<-|Hne].
    + rewrite lookup_insert_eq. apply deref_lookup.
      rewrite Ho. now apply list_lookup_middle.
    + rewrite lookup_insert_ne by exact Hne. unfold JS.stored.
      destruct (JS._data_cache s !! q) as [r|] eqn:Eq.
      * apply deref_lookup. rewrite Ho.
        rewrite lookup_app_l by (eapply Hv; eauto).
        apply deref_valid. eapply Hv; eauto.
      * now rewrite Hf.
Qed.

(** [_load_plugin_data] returns a reference to what the storage holds
    for the plugin; it writes no file and changes what is stored for no
    plugin. *)
Lemma load_spec (p : string) (s : State) :
  JS.cache_valid s ->
  exists data s1,
    JS._load_plugin_data p s = (data, s1)
    /\ JS.files s1 = JS.files s
    /\ JS.cache_valid s1
    /\ JS.objects s1 !! data = Some (JS.stored p s)
    /\ (forall q, JS.stored q s1 = JS.stored q s).
Proof.
  intros Hv. unfold JS._load_plugin_data.
  destruct (JS._data_cache s !! p) as [data|] eqn:Ec.
  - exists data, s. repeat split; auto.
    unfold JS.stored. rewrite Ec. apply deref_valid. eapply Hv; eauto.
  - assert (forall d extra s1,
               JS.stored p s = d ->
               JS.files s1 = JS.files s ->
               JS.objects s1 = JS.objects s ++ d :: extra ->
               JS._data_cache s1
               = <[p := length (JS.objects s)]> (JS._data_cache s) ->
               JS.cache_valid s1 /\ forall q, JS.stored q s1 = JS.stored q s)
      as Hext.
    { intros d extra s1 <-. now apply extended_state. }
    assert (JS.stored p s
            = match JS.files s !! JS._get_plugin_file_path p with
              | Some (JS.Decoded d) => JS.json_roundtrip <$> d
              | _ => ∅
              end) as Hst.
    { unfold JS.stored. now rewrite Ec. }
    destruct (JS.files s !! JS._get_plugin_file_path p) as [[|d]|] eqn:Ef;
      simpl.
    + eexists _, _. split; [reflexivity|]. simpl.
      destruct (Hext ∅ [∅]
                  {| JS.files := JS.files s;
                     JS.objects := (JS.objects s ++ [∅]) ++ [∅];
                     JS._data_cache :=
                       <[p := length (JS.objects s)]> (JS._data_cache s) |}
                  Hst eq_refl) as [H1 H2]; simpl.
      { now rewrite <- app_assoc. }
      { reflexivity. }
      repeat split; auto.
      rewrite Hst, <- app_assoc. simpl.
      rewrite lookup_app_r by (rewrite length_app; simpl; lia).
      rewrite length_app. simpl.
      replace (length (JS.objects s) + 1 - length (JS.objects s)) with 1
        by lia.
      reflexivity.
    + eexists _, _. split; [reflexivity|]. simpl.
      destruct (Hext (JS.json_roundtrip <$> d) []
                  {| JS.files := JS.files s;
                     JS.objects := JS.objects s ++ [JS.json_roundtrip <$> d];
                     JS._data_cache :=
                       <[p := length (JS.objects s)]> (JS._data_cache s) |}
                  Hst eq_refl eq_refl eq_refl) as [H1 H2].
      repeat split; auto.
      rewrite Hst. now apply list_lookup_middle.
    + eexists _, _. split; [reflexivity|]. simpl.
      destruct (Hext ∅ [∅]
                  {| JS.files := JS.files s;
                     JS.objects := (JS.objects s ++ [∅]) ++ [∅];
                     JS._data_cache :=
                       <[p := length (JS.objects s)]> (JS._data_cache s) |}
                  Hst eq_refl) as [H1 H2]; simpl.
      { now rewrite <- app_assoc. }
      { reflexivity. }
      repeat split; auto.
      rewrite Hst, <- app_assoc. simpl.
      rewrite lookup_app_r by (rewrite length_app; simpl; lia).
      rewrite length_app. simpl.
      replace (length (JS.objects s) + 1 - length (JS.objects s)) with 1
        by lia.
      reflexivity.
Qed.

(** The state after an in-place change of the loaded dictionary
    followed by [_save_plugin_data]. *)
Lemma mutate_save_spec (p : string) (s1 : State) (data : nat)
    (d : gmap string Value) (f : gmap string Value -> gmap string Value) :
  JS.cache_valid s1 ->
  JS.objects s1 !! data = Some d ->
  let s3 := JS._save_plugin_data p data (JS.mutate data f s1) in
  JS.cache_valid s3
  /\ JS.stored p s3 = f d
  /\ JS.files s3 !! JS._get_plugin_file_path p = Some (JS.Decoded (f d)).
Proof.
  intros Hv Hd s3.
  assert (JS.deref (JS.mutate data f s1) data = f d) as Hderef.
  { apply deref_lookup. simpl. rewrite list_lookup_alter_eq, Hd. reflexivity. }
  split; [|split].
  - intros q r. simpl. rewrite length_alter.
    destruct (decide (p = q)) as [->|Hne].
    + rewrite lookup_insert_eq. intros [= <-].
      now apply lookup_lt_Some in Hd.
    + rewrite lookup_insert_ne by exact Hne. apply Hv.
  - unfold JS.stored. simpl. rewrite lookup_insert_eq.
    apply deref_lookup. simpl. rewrite list_lookup_alter_eq, Hd. reflexivity.
  - simpl. rewrite lookup_insert_eq. now rewrite Hderef.
Qed.

(** [set] stores the value under the key, in the cache and in the
    file. *)
Lemma set_spec (p k : string) (v : Value) (s : State) :
  JS.cache_valid s ->
  JS.cache_valid (JS.set p k v s)
  /\ JS.stored p (JS.set p k v s) = <[k := v]> (JS.stored p s)
  /\ JS.files (JS.set p k v s) !! JS._get_plugin_file_path p
     = Some (JS.Decoded (<[k := v]> (JS.stored p s))).
Proof.
  intros Hv. unfold JS.set.
  destruct (load_spec p s Hv) as (data & s1 & -> & _ & Hv1 & Hd & _).
  exact (mutate_save_spec p s1 data _ (fun d => <[k := v]> d) Hv1 Hd).
Qed.

(** [get] reads what is stored, writes no file and changes what is
    stored for no plugin. *)
Lemma get_spec (p k : string) (s : State) :
  JS.cache_valid s ->
  fst (JS.get PyNone p k s) = default PyNone (JS.stored p s !! k)
  /\ JS.cache_valid (snd (JS.get PyNone p k s))
  /\ JS.files (snd (JS.get PyNone p k s)) = JS.files s
  /\ (forall q, JS.stored q (snd (JS.get PyNone p k s)) = JS.stored q s).
Proof.
  intros Hv. unfold JS.get.
  destruct (load_spec p s Hv) as (data & s1 & -> & Hf & Hv1 & Hd & Hs).
  simpl. rewrite (deref_lookup _ _ _ Hd). auto.
Qed.

(** [delete] removes the key; when the key is not there it writes no
    file and leaves what is stored for every plugin. *)
Lemma delete_spec (p k : string) (s : State) :
  JS.cache_valid s ->
  JS.cache_valid (JS.delete p k s)
  /\ JS.stored p (JS.delete p k s) = base.delete k (JS.stored p s)
  /\ (JS.stored p s !! k = None ->
      JS.files (JS.delete p k s) = JS.files s
      /\ forall q, JS.stored q (JS.delete p k s) = JS.stored q s).
Proof.
  intros Hv. unfold JS.delete.
  destruct (load_spec p s Hv) as (data & s1 & -> & Hf & Hv1 & Hd & Hs).
  rewrite (deref_lookup _ _ _ Hd).
  destruct (bool_decide (is_Some (JS.stored p s !! k))) eqn:E.
  - apply bool_decide_eq_true in E.
    destruct (mutate_save_spec p s1 data _ (fun d => base.delete k d) Hv1 Hd)
      as (H1 & H2 & _).
    split; [exact H1|]. split; [exact H2|].
    intros Hnone. rewrite Hnone in E. now destruct E.
  - apply bool_decide_eq_false in E.
    assert (JS.stored p s !! k = None) as Hnone.
    { destruct (JS.stored p s !! k); [exfalso; apply E; eauto | reflexivity]. }
    split; [exact Hv1|]. split.
    + rewrite Hs. symmetry. now apply delete_id.
    + intros _. auto.
Qed.

Lemma empty_storage_valid : JS.cache_valid (@JS.empty_storage Value).
Proof. intros p data. simpl. now rewrite lookup_empty. Qed.

Lemma clear_plugin_valid (p : string) (s : State) :
  JS.cache_valid s -> JS.cache_valid (JS.clear_plugin p s).
Proof.
  intros Hv q r. unfold JS.clear_plugin. simpl. rewrite length_app. simpl.
  destruct (decide (p = q)) as [->|Hne].
  - now rewrite lookup_delete_eq.
  - rewrite lookup_delete_ne, lookup_insert_ne by exact Hne.
    intros Hq. apply Hv in Hq. lia.
Qed.

(** Every state a process goes through has valid cached references. *)
Lemma reachable_valid (s : State) :
  JS.reachable PyNone s -> JS.cache_valid s.
Proof.
  induction 1 as [dir|p k v s _ IH|p k s _ IH|p k s _ IH|p s _ IH].
  - intros p data. simpl. now rewrite lookup_empty.
  - now apply set_spec.
  - now apply get_spec.
  - now apply delete_spec.
  - now apply clear_plugin_valid.
Qed.

(** C9.  In a storage whose cached references are valid (as they are in
    a new storage and after every operation): [get] after [set] returns
    the value set, also over a value set before; [get] returns [None]
    for a key the storage holds nothing for (in a new storage, for every
    key) and for a key that was just deleted; and [delete] of a key that
    is not there writes no file and leaves what is stored for every
    plugin. *)
Theorem json_plugin_storage_laws
    (s : State) (p k : string) (v v0 : Value) :
  JS.cache_valid s ->
  fst (JS.get PyNone p k (JS.set p k v s)) = v
  /\ fst (JS.get PyNone p k (JS.set p k v (JS.set p k v0 s))) = v
  /\ (JS.stored p s !! k = None -> fst (JS.get PyNone p k s) = PyNone)
  /\ fst (JS.get PyNone p k JS.empty_storage) = PyNone
  /\ fst (JS.get PyNone p k (JS.delete p k s)) = PyNone
  /\ fst (JS.get PyNone p k (JS.delete p k (JS.set p k v s))) = PyNone
  /\ (JS.stored p s !! k = None ->
      JS.files (JS.delete p k s) = JS.files s
      /\ forall q, JS.stored q (JS.delete p k s) = JS.stored q s)
  /\ JS.cache_valid (JS.set p k v s)
  /\ JS.cache_valid (JS.delete p k s).
Proof.
  intros Hv.
  destruct (set_spec p k v s Hv) as (Hvs & Hss & _).
  destruct (set_spec p k v0 s Hv) as (Hvs0 & Hss0 & _).
  destruct (set_spec p k v _ Hvs0) as (Hvs1 & Hss1 & _).
  destruct (delete_spec p k s Hv) as (Hvd & Hsd & Hfd).
  destruct (delete_spec p k _ Hvs) as (Hvd1 & Hsd1 & _).
  split.
  { destruct (get_spec p k _ Hvs) as (-> & _).
    now rewrite Hss, lookup_insert_eq. }
  split.
  { destruct (get_spec p k _ Hvs1) as (-> & _).
    now rewrite Hss1, lookup_insert_eq. }
  split.
  { intros Hnone. destruct (get_spec p k _ Hv) as (-> & _).
    now rewrite Hnone. }
  split.
  { destruct (get_spec p k _ empty_storage_valid) as (-> & _).
    reflexivity. }
  split.
  { destruct (get_spec p k _ Hvd) as (-> & _).
    now rewrite Hsd, lookup_delete_eq. }
  split.
  { destruct (get_spec p k _ Hvd1) as (-> & _).
    now rewrite Hsd1, lookup_delete_eq. }
  split; [exact Hfd|]. split; [exact Hvs | exact Hvd].
Qed.

End Laws.

(** C9 in a new storage, with strings as values and the empty string
    standing for [None]. *)
Lemma json_plugin_storage_laws_witness :
  JS.cache_valid (@JS.empty_storage string)
  /\ fst (JS.get "" "plugin" "key"
            (JS.set "plugin" "key" "value" JS.empty_storage)) = "value"
  /\ fst (JS.get "" "plugin" "key"
            (JS.delete "plugin" "key"
               (JS.set "plugin" "key" "value" JS.empty_storage))) = "".
Proof.
  pose proof (json_plugin_storage_laws "" JS.empty_storage "plugin" "key"
                "value" "old" empty_storage_valid)
    as (H1 & _ & _ & _ & _ & H6 & _).
  split; [exact empty_storage_valid|]. split; assumption.
Defined.

End JSONStorageProps.

(** ** The SQLite conversation store: creation, deletion, composition *)
Module SQLiteLifeCycle.
Import SQLite SQLiteProps.

(** The first row with the key, as [fetchone] gives it. *)
Definition first_with_key (u c : string) (rows : list Row) : option Row :=
  head (List.filter (key_matches u c) rows).

(** What a statement of [_exec_sql] that rewrites the table by [f]
    does. *)
Lemma exec_rewrite (db : SQLiteDatabase) (rows : list Row)
    (f : list Row -> list Row) :
  available db = true ->
  webchat_conversation db = Some rows ->
  exists db',
    _exec_sql (await rows <- read_table in write_table (f rows)) db
    = (Ok tt, db')
    /\ webchat_conversation db' = Some (f rows)
    /\ available db' = true.
Proof.
  intros Hav Htab.
  destruct (ensure_connection_ok db Hav) as (db1 & He & Ht1 & Hc1 & _).
  rewrite Htab in Ht1.
  unfold _exec_sql, bind. rewrite He, (read_table_ok _ _ Ht1).
  unfold write_table. eexists. split; [reflexivity|]. split; [reflexivity|].
  unfold available. simpl. now rewrite Hc1.
Qed.

(** The lookup as a function of the table. *)
Lemma lookup_outcome (db : SQLiteDatabase) (rows : list Row) (u c : string) :
  available db = true ->
  webchat_conversation db = Some rows ->
  fst (get_conversation_by_user_id u c db)
  = Ok (Conversation_of_row <$> first_with_key u c rows).
Proof.
  intros Hav Htab.
  destruct (ensure_connection_ok db Hav) as (db1 & He & Ht1 & _ & _).
  rewrite Htab in Ht1.
  unfold get_conversation_by_user_id, bind, first_with_key.
  rewrite He, (read_table_ok _ _ Ht1).
  now destruct (List.filter (key_matches u c) rows).
Qed.

Lemma key_matches_same (u c u' c' : string) (r : Row) :
  key_matches u c r = true -> key_matches u' c' r = true ->
  (u', c') = (u, c).
Proof.
  rewrite !key_matches_iff. unfold has_key.
  intros [H1 H2] [H3 H4]. congruence.
Qed.

Lemma key_matches_new_row (now : Z) (u c u' c' : string) :
  key_matches u' c' (new_row now u c) = bool_decide ((u', c') = (u, c)).
Proof.
  unfold key_matches, new_row. simpl.
  destruct (bool_decide (Some u = Some u')) eqn:E1;
    destruct (bool_decide (Some c = Some c')) eqn:E2; simpl;
    symmetry;
    try apply bool_decide_eq_true in E1;
    try apply bool_decide_eq_true in E2;
    try apply bool_decide_eq_false in E1;
    try apply bool_decide_eq_false in E2.
  - apply bool_decide_eq_true. congruence.
  - apply bool_decide_eq_false. congruence.
  - apply bool_decide_eq_false. congruence.
  - apply bool_decide_eq_false. congruence.
Qed.

(** [new_conversation] followed by the lookup: the new row is appended
    with history ["[]"] and both times set to the clock's reading; for
    its own key the lookup then returns the conversation that was stored
    before when there was one (a second conversation with the same key
    does not replace the first), and the new one otherwise; the lookup
    of every other key is as before. *)
Theorem new_conversation_then_lookup
    (db : SQLiteDatabase) (rows : list Row) (now : Z) (u c : string) :
  available db = true ->
  webchat_conversation db = Some rows ->
  int64 now = true ->
  exists db',
    new_conversation now u c db = (Ok tt, db')
    /\ webchat_conversation db' = Some (rows ++ [new_row now u c])
    /\ fst (get_conversation_by_user_id u c db')
       = match fst (get_conversation_by_user_id u c db) with
         | Ok (Some old) => Ok (Some old)
         | _ => Ok (Some (Conversation_of_row (new_row now u c)))
         end
    /\ (forall u' c',
          (u', c') <> (u, c) ->
          fst (get_conversation_by_user_id u' c' db')
          = fst (get_conversation_by_user_id u' c' db)).
Proof.
  intros Hav Htab Hnow.
  destruct (ensure_connection_ok db Hav) as (db1 & He & Ht1 & Hc1 & _).
  rewrite Htab in Ht1.
  eexists. split.
  { unfold new_conversation, _exec_sql, INSERT_row, bind, bind_int.
    rewrite He, (read_table_ok _ _ Ht1), Hnow. unfold ret.
    rewrite (read_table_ok _ _ Ht1). unfold write_table. reflexivity. }
  simpl. split; [reflexivity|].
  assert (forall u' c',
             fst (get_conversation_by_user_id u' c'
                    {| connected := connected db1;
                       openable := openable db1;
                       webchat_conversation :=
                         Some (rows ++ [new_row now u c]) |})
             = Ok (Conversation_of_row
                     <$> first_with_key u' c' (rows ++ [new_row now u c])))
    as Hafter.
  { intros u' c'. apply lookup_outcome; [|reflexivity].
    unfold available. simpl. now rewrite Hc1. }
  split.
  - rewrite Hafter, (lookup_outcome db rows u c Hav Htab).
    unfold first_with_key. rewrite List.filter_app. simpl.
    rewrite key_matches_new_row, bool_decide_eq_true_2 by reflexivity.
    now destruct (List.filter (key_matches u c) rows).
  - intros u' c' Hne.
    rewrite Hafter, (lookup_outcome db rows u' c' Hav Htab).
    unfold first_with_key. rewrite List.filter_app. simpl.
    rewrite key_matches_new_row, bool_decide_eq_false_2 by exact Hne.
    now rewrite app_nil_r.
Qed.

Lemma new_conversation_then_lookup_witness :
  available sample_db = true
  /\ webchat_conversation sample_db = Some sample_rows
  /\ int64 1700000000 = true
  /\ exists db',
       new_conversation 1700000000 "webchat:FriendMessage:c" "c9" sample_db
       = (Ok tt, db')
       /\ fst (get_conversation_by_user_id "webchat:FriendMessage:c" "c9" db')
          = Ok (Some (Conversation_of_row
                        (new_row 1700000000 "webchat:FriendMessage:c" "c9"))).
Proof.
  split; [reflexivity|]. split; [reflexivity|]. split; [reflexivity|].
  destruct (new_conversation_then_lookup sample_db sample_rows 1700000000
              "webchat:FriendMessage:c" "c9" eq_refl eq_refl eq_refl)
    as (db' & H1 & _ & H3 & _).
  exists db'. split; [exact H1|]. exact H3.
Defined.

(** Rows with another key are not touched by a filter on the key. *)
Lemma filter_other_key (u c u' c' : string) (rows : list Row) :
  (u', c') <> (u, c) ->
  List.filter (key_matches u' c')
    (List.filter (fun r => negb (key_matches u c r)) rows)
  = List.filter (key_matches u' c') rows.
Proof.
  intros Hne. induction rows as [|r rows IH]; simpl; [reflexivity|].
  destruct (key_matches u c r) eqn:E; simpl.
  - destruct (key_matches u' c' r) eqn:E'; [|exact IH].
    exfalso. apply Hne. now apply (key_matches_same u c u' c' r).
  - now rewrite IH.
Qed.

Lemma filter_own_key (u c : string) (rows : list Row) :
  List.filter (key_matches u c)
    (List.filter (fun r => negb (key_matches u c r)) rows) = [].
Proof.
  induction rows as [|r rows IH]; simpl; [reflexivity|].
  destruct (key_matches u c r) eqn:E; simpl; [exact IH|].
  now rewrite E.
Qed.

Lemma filter_twice (u c : string) (rows : list Row) :
  List.filter (fun r => negb (key_matches u c r))
    (List.filter (fun r => negb (key_matches u c r)) rows)
  = List.filter (fun r => negb (key_matches u c r)) rows.
Proof.
  induction rows as [|r rows IH]; simpl; [reflexivity|].
  destruct (key_matches u c r) eqn:E; simpl; [exact IH|].
  now rewrite E, IH.
Qed.

(** [delete_conversation] removes every row with the key and no other
    row, keeping the order of the rest; afterwards the lookup of the key
    finds nothing and the lookup of every other key is as before; the
    listing's total drops by the number of rows removed; and deleting
    once more changes nothing. *)
Theorem delete_conversation_removes_the_key
    (db : SQLiteDatabase) (rows : list Row) (u c : string) :
  available db = true ->
  webchat_conversation db = Some rows ->
  exists db',
    delete_conversation u c db = (Ok tt, db')
    /\ webchat_conversation db'
       = Some (List.filter (fun r => negb (key_matches u c r)) rows)
    /\ fst (get_conversation_by_user_id u c db') = Ok None
    /\ (forall u' c',
          (u', c') <> (u, c) ->
          fst (get_conversation_by_user_id u' c' db')
          = fst (get_conversation_by_user_id u' c' db))
    /\ (forall rows',
          webchat_conversation db' = Some rows' ->
          length rows'
          + length (List.filter (key_matches u c) rows) = length rows)
    /\ webchat_conversation (snd (delete_conversation u c db'))
       = webchat_conversation db'.
Proof.
  intros Hav Htab.
  destruct (exec_rewrite db rows
              (List.filter (fun r => negb (key_matches u c r))) Hav Htab)
    as (db' & Hrun & Htab' & Hav').
  exists db'. split; [exact Hrun|]. split; [exact Htab'|].
  split; [|split; [|split]].
  - rewrite (lookup_outcome db' _ u c Hav' Htab').
    unfold first_with_key. now rewrite filter_own_key.
  - intros u' c' Hne.
    rewrite (lookup_outcome db' _ u' c' Hav' Htab').
    rewrite (lookup_outcome db rows u' c' Hav Htab).
    unfold first_with_key. now rewrite filter_other_key.
  - intros rows'. rewrite Htab'. intros [= <-].
    clear. induction rows as [|r rows IH]; simpl; [reflexivity|].
    destruct (key_matches u c r); simpl; lia.
  - destruct (exec_rewrite db' _
                (List.filter (fun r => negb (key_matches u c r))) Hav' Htab')
      as (db'' & Hrun' & Htab'' & _).
    unfold delete_conversation, DELETE_where. rewrite Hrun'. simpl.
    now rewrite Htab'', Htab', filter_twice.
Qed.

Lemma delete_conversation_removes_the_key_witness :
  available sample_db = true
  /\ webchat_conversation sample_db = Some sample_rows
  /\ exists db',
       delete_conversation "webchat:FriendMessage:c" "c3" sample_db
       = (Ok tt, db')
       /\ webchat_conversation db'
          = Some [ sample_row "test_platform:FriendMessage:a" "c1" 10;
                   sample_row "test_platform:GroupMessage:b" "c2" 30 ]
       /\ fst (get_conversation_by_user_id "webchat:FriendMessage:c" "c3" db')
          = Ok None.
Proof.
  split; [reflexivity|]. split; [reflexivity|].
  destruct (delete_conversation_removes_the_key sample_db sample_rows
              "webchat:FriendMessage:c" "c3" eq_refl eq_refl)
    as (db' & H1 & H2 & H3 & _).
  exists db'. split; [exact H1|]. split; [exact H2 | exact H3].
Defined.

(** *** The list of one user *)

Definition conv_desc (a b : Conversation) : Prop :=
  sql_ge (conv_updated_at a) (conv_updated_at b) = true.

Lemma sorted_listed (l : list Row) :
  Sorted desc l -> Sorted conv_desc (map listed_conversation l).
Proof.
  induction 1 as [|r l Hs IH Hhd]; simpl; constructor; [exact IH|].
  destruct Hhd; simpl; constructor. assumption.
Qed.

(** [get_conversations user_id] returns, newest first, one entry for
    each stored row of that user and for no other row; every entry
    carries the row's cid, times, title and persona, but never the
    user id (it is the empty string) and never the stored history (it is
    ["[]"]); the table is left as it was. *)
Theorem get_conversations_lists_the_user
    (db : SQLiteDatabase) (rows : list Row) (u : string) :
  available db = true ->
  webchat_conversation db = Some rows ->
  exists convs db',
    get_conversations u db = (Ok convs, db')
    /\ webchat_conversation db' = Some rows
    /\ Forall (fun cv => conv_user_id cv = Some ""
                         /\ conv_history cv = Some "[]") convs
    /\ (exists listed,
          Permutation listed (List.filter (user_matches u) rows)
          /\ convs = map listed_conversation listed)
    /\ length convs = length (List.filter (user_matches u) rows)
    /\ Sorted conv_desc convs.
Proof.
  intros Hav Htab.
  destruct (ensure_connection_ok db Hav) as (db1 & He & Ht1 & _ & _).
  rewrite Htab in Ht1.
  unfold get_conversations, bind. rewrite He, (read_table_ok _ _ Ht1).
  unfold ret. eexists _, _. split; [reflexivity|]. split; [exact Ht1|].
  split; [|split; [|split]].
  - apply List.Forall_forall. intros cv Hin.
    apply in_map_iff in Hin as (r & <- & _). split; reflexivity.
  - eexists. split; [apply order_by_perm | reflexivity].
  - now rewrite length_map, order_by_length.
  - apply sorted_listed, order_by_sorted.
Qed.

Lemma get_conversations_lists_the_user_witness :
  available sample_db = true
  /\ webchat_conversation sample_db = Some sample_rows
  /\ exists convs db',
       get_conversations "webchat:FriendMessage:c" sample_db = (Ok convs, db')
       /\ length convs = 1
       /\ Forall (fun cv => conv_user_id cv = Some ""
                            /\ conv_history cv = Some "[]") convs.
Proof.
  split; [reflexivity|]. split; [reflexivity|].
  destruct (get_conversations_lists_the_user sample_db sample_rows
              "webchat:FriendMessage:c" eq_refl eq_refl)
    as (convs & db' & H1 & _ & H3 & _ & H5 & _).
  exists convs, db'. split; [exact H1|]. split; [exact H5 | exact H3].
Defined.

(** *** Update, then lookup *)

(** [Conversation] with another history and time of update. *)
Definition with_history (h : string) (now : Z) (cv : Conversation)
    : Conversation :=
  {| conv_user_id := conv_user_id cv;
     conv_cid := conv_cid cv;
     conv_history := Some h;
     conv_created_at := conv_created_at cv;
     conv_updated_at := Some now;
     conv_title := conv_title cv;
     conv_persona_id := conv_persona_id cv |}.

Lemma filter_key_updated (u c u' c' : string) (set : Row -> Row)
    (rows : list Row) :
  (forall r, key_matches u' c' (set r) = key_matches u' c' r) ->
  List.filter (key_matches u' c')
    (map (fun r => if key_matches u c r then set r else r) rows)
  = map (fun r => if key_matches u c r then set r else r)
        (List.filter (key_matches u' c') rows).
Proof.
  intros Hset. induction rows as [|r rows IH]; simpl; [reflexivity|].
  destruct (key_matches u c r) eqn:E.
  - rewrite Hset. destruct (key_matches u' c' r); simpl; rewrite ?E;
      now rewrite IH.
  - destruct (key_matches u' c' r); simpl; rewrite ?E; now rewrite IH.
Qed.

(** [update_conversation] followed by the lookup: when a conversation is
    stored for the key, the lookup returns it with the new history and
    the clock's reading as time of update; when none is, the update
    creates none and the lookup still finds nothing; the lookup of every
    other key is as before. *)
Theorem update_conversation_then_lookup
    (db : SQLiteDatabase) (rows : list Row) (now : Z) (u c h : string) :
  available db = true ->
  webchat_conversation db = Some rows ->
  int64 now = true ->
  exists db',
    update_conversation now u c h db = (Ok tt, db')
    /\ fst (get_conversation_by_user_id u c db')
       = match fst (get_conversation_by_user_id u c db) with
         | Ok (Some old) => Ok (Some (with_history h now old))
         | other => other
         end
    /\ (forall u' c',
          (u', c') <> (u, c) ->
          fst (get_conversation_by_user_id u' c' db')
          = fst (get_conversation_by_user_id u' c' db)).
Proof.
  intros Hav Htab Hnow.
  destruct (ensure_connection_ok db Hav) as (db1 & He & Ht1 & Hc1 & _).
  rewrite Htab in Ht1.
  eexists. split.
  { unfold update_conversation, _exec_sql, UPDATE_where, bind, bind_int.
    rewrite He, (read_table_ok _ _ Ht1), Hnow. unfold ret.
    rewrite (read_table_ok _ _ Ht1). unfold write_table. reflexivity. }
  simpl.
  assert (forall u' c',
             fst (get_conversation_by_user_id u' c'
                    {| connected := connected db1;
                       openable := openable db1;
                       webchat_conversation :=
                         Some (map (fun r => if key_matches u c r
                                             then set_history h now r else r)
                                   rows) |})
             = Ok (Conversation_of_row
                     <$> first_with_key u' c'
                           (map (fun r => if key_matches u c r
                                          then set_history h now r else r)
                                rows)))
    as Hafter.
  { intros u' c'. apply lookup_outcome; [|reflexivity].
    unfold available. simpl. now rewrite Hc1. }
  split.
  - rewrite Hafter, (lookup_outcome db rows u c Hav Htab).
    unfold first_with_key.
    rewrite filter_key_updated by (intros r; reflexivity).
    destruct (List.filter (key_matches u c) rows) as [|r rest] eqn:E;
      simpl; [reflexivity|].
    assert (key_matches u c r = true) as Hr.
    { assert (In r (List.filter (key_matches u c) rows)) as Hin
        by (rewrite E; now left).
      now apply filter_In in Hin. }
    now rewrite Hr.
  - intros u' c' Hne.
    rewrite Hafter, (lookup_outcome db rows u' c' Hav Htab).
    unfold first_with_key.
    rewrite filter_key_updated by (intros r; reflexivity).
    assert (forall l,
               Forall (fun r => key_matches u' c' r = true) l ->
               map (fun r => if key_matches u c r
                             then set_history h now r else r) l = l) as Hid.
    { induction 1 as [|r l Hr _ IH]; simpl; [reflexivity|].
      destruct (key_matches u c r) eqn:E.
      - exfalso. apply Hne. now apply (key_matches_same u c u' c' r).
      - now rewrite IH. }
    rewrite Hid; [reflexivity|].
    apply List.Forall_forall. intros r Hin.
    now apply filter_In in Hin.
Qed.

Lemma update_conversation_then_lookup_witness :
  available sample_db = true
  /\ webchat_conversation sample_db = Some sample_rows
  /\ int64 1700000000 = true
  /\ exists db',
       update_conversation 1700000000 "webchat:FriendMessage:c" "c3" "[1]"
         sample_db = (Ok tt, db')
       /\ fst (get_conversation_by_user_id "webchat:FriendMessage:c" "c3" db')
          = Ok (Some (with_history "[1]" 1700000000
                        (Conversation_of_row
                           (sample_row "webchat:FriendMessage:c" "c3" 20)))).
Proof.
  split; [reflexivity|]. split; [reflexivity|]. split; [reflexivity|].
  destruct (update_conversation_then_lookup sample_db sample_rows 1700000000
              "webchat:FriendMessage:c" "c3" "[1]" eq_refl eq_refl eq_refl)
    as (db' & H1 & H2 & _).
  exists db'. split; [exact H1 | exact H2].
Defined.

End SQLiteLifeCycle.

(** ** The SQLite conversation store: what the listings return *)
Module SQLiteListingProps.
Import SQLite SQLiteProps.

Lemma limit_offset_incl {A} (limit offset : Z) (l : list A) (x : A) :
  In x (limit_offset limit offset l) -> In x l.
Proof.
  unfold limit_offset. rewrite <- !list_elem_of_In.
  destruct (limit <? 0)%Z; intros H.
  - now apply (subseteq_drop (Z.to_nat offset) l).
  - apply (subseteq_drop (Z.to_nat offset) l).
    now apply (subseteq_take (Z.to_nat limit)) in H.
Qed.

(** Every outcome of the two statements of a listing. *)
Lemma count_and_page_outcome (db : SQLiteDatabase)
    (selected : Row -> bool) (page page_size : Z) :
  fst (count_and_page selected page page_size db)
  = match webchat_conversation db with
    | Some rows =>
        if int64 page_size
        then
          if int64 ((page - 1) * page_size)
          then Ok (map row_dict
                     (limit_offset page_size ((page - 1) * page_size)
                        (order_by_updated_at_desc
                           (List.filter selected rows))),
                   Z.of_nat (length (List.filter selected rows)))
          else Raise (OverflowError
                        "Python int too large to convert to SQLite INTEGER")
        else Raise (OverflowError
                      "Python int too large to convert to SQLite INTEGER")
    | None =>
        Raise (OperationalError "no such table: webchat_conversation")
    end.
Proof.
  unfold count_and_page, bind, bind_int, read_table, ret, raise.
  destruct (webchat_conversation db) as [rows|] eqn:E; cbv beta iota;
    [|reflexivity].
  rewrite E. cbv beta iota.
  destruct (int64 page_size); cbv beta iota; [|reflexivity].
  destruct (int64 ((page - 1) * page_size)); reflexivity.
Qed.

(** What a listing returns comes from stored rows that are selected. *)
Lemma count_and_page_items (db : SQLiteDatabase) (selected : Row -> bool)
    (page page_size : Z) (items : list ConversationDict) (total : Z) :
  fst (count_and_page selected page page_size db) = Ok (items, total) ->
  exists rows,
    webchat_conversation db = Some rows
    /\ total = Z.of_nat (length (List.filter selected rows))
    /\ forall item, In item items ->
         exists r, In r rows /\ selected r = true /\ item = row_dict r.
Proof.
  rewrite count_and_page_outcome.
  destruct (webchat_conversation db) as [rows|]; [|discriminate].
  destruct (int64 page_size); [|discriminate].
  destruct (int64 ((page - 1) * page_size)); [|discriminate].
  intros [= <- <-]. exists rows. split; [reflexivity|].
  split; [reflexivity|].
  intros item Hin. apply in_map_iff in Hin as (r & <- & Hin).
  apply limit_offset_incl in Hin.
  apply (Permutation_in _ (order_by_perm _)) in Hin.
  apply filter_In in Hin as [Hin Hsel]. eauto.
Qed.

(** A listing that returns went through the body of its [try] block or
    through its handler. *)
Lemma listing_returns (db : SQLiteDatabase) (body : M (list ConversationDict * Z))
    (items : list ConversationDict) (total : Z) :
  fst ((await _ <- _ensure_connection in
        try_except body (ret ([], 0%Z))) db) = Ok (items, total) ->
  exists db1,
    _ensure_connection db = (Ok tt, db1)
    /\ webchat_conversation db1 = webchat_conversation db
    /\ (fst (body db1) = Ok (items, total)
        \/ (items = [] /\ total = 0%Z)).
Proof.
  destruct (available db) eqn:Hav.
  - destruct (ensure_connection_ok db Hav) as (db1 & He & Ht1 & _ & _).
    unfold bind, try_except. rewrite He.
    destruct (body db1) as [[r|e] db2] eqn:Eb; simpl.
    + intros [= ->]. exists db1.
      split; [reflexivity|]. split; [exact Ht1|]. left. now rewrite Eb.
    + intros [= <- <-]. exists db1.
      split; [reflexivity|]. split; [exact Ht1|]. right. now split.
  - unfold bind. rewrite (ensure_connection_raises db Hav). discriminate.
Qed.

(** Both listings have this shape, for some selection of rows. *)
Lemma listing_of_selected (db : SQLiteDatabase) (selected : Row -> bool)
    (page page_size : Z) (items : list ConversationDict) (total : Z) :
  fst ((await _ <- _ensure_connection in
        try_except (count_and_page selected page page_size)
                   (ret ([], 0%Z))) db) = Ok (items, total) ->
  (0 <= total)%Z
  /\ forall item, In item items ->
       exists rows r,
         webchat_conversation db = Some rows /\ In r rows
         /\ selected r = true /\ item = row_dict r.
Proof.
  intros Hret.
  destruct (listing_returns db _ items total Hret)
    as (db1 & He & Ht1 & [Hbody|[-> ->]]).
  - destruct (count_and_page_items _ _ _ _ _ _ Hbody)
      as (rows & Htab & -> & Hitems).
    rewrite Ht1 in Htab. split; [lia|].
    intros item Hin. destruct (Hitems item Hin) as (r & Hr & Hsel & ->).
    exists rows, r. auto.
  - split; [lia|]. intros item [].
Qed.

(** *** Entries *)

Lemma row_dict_cid (row : Row) :
  PyStr.truthy (d_cid (row_dict row)) = true
  /\ (d_cid (row_dict row) = "unknown"
      \/ cid row = Some (d_cid (row_dict row))).
Proof.
  unfold row_dict. simpl.
  destruct (cid row) as [[|a s]|]; simpl; auto.
Qed.

Lemma row_dict_title (row : Row) :
  PyStr.truthy (d_title (row_dict row)) = true
  /\ (PyStr.truthy_opt (title row) = true ->
      title row = Some (d_title (row_dict row))).
Proof.
  unfold row_dict. simpl.
  destruct (title row) as [[|a s]|]; simpl; split;
    try reflexivity; discriminate.
Qed.

(** What an entry shows of the row it is built from. *)
Definition displays (item : ConversationDict) (r : Row) : Prop :=
  item = row_dict r
  /\ PyStr.truthy (d_cid item) = true
  /\ PyStr.truthy (d_title item) = true
  /\ (d_cid item = "unknown" \/ cid r = Some (d_cid item))
  /\ (PyStr.truthy_opt (title r) = true -> title r = Some (d_title item)).

Lemma row_dict_displays (r : Row) : displays (row_dict r) r.
Proof.
  destruct (row_dict_cid r) as [H1 H2].
  destruct (row_dict_title r) as [H3 H4].
  unfold displays. auto.
Qed.

Section Entries.
Variable unicode_escape : string -> string.

(** Whatever the page, the page size and the filters, every entry that
    [get_all_conversations] or [get_filtered_conversations] returns is
    built from a stored row, has a cid that is not empty (the row's cid,
    or "unknown" when the row has none or an empty one) and a title that
    is not empty (the row's own title when it has one that is not
    empty); and the total is never negative. *)
Theorem listing_entries_are_displayable
    (db : SQLiteDatabase) (page page_size : Z)
    (platforms message_types : option (list string))
    (search_query : option string)
    (exclude_ids exclude_platforms : option (list string))
    (items : list ConversationDict) (total : Z) :
  fst (get_all_conversations page page_size db) = Ok (items, total)
  \/ fst (get_filtered_conversations unicode_escape page page_size platforms
            message_types search_query exclude_ids exclude_platforms db)
     = Ok (items, total) ->
  (0 <= total)%Z
  /\ forall item, In item items ->
       exists rows r,
         webchat_conversation db = Some rows /\ In r rows /\ displays item r.
Proof.
  intros [Hret|Hret];
    apply listing_of_selected in Hret as [Htot Hitems];
    (split; [exact Htot|]);
    intros item Hin;
    destruct (Hitems item Hin) as (rows & r & Htab & Hr & _ & ->);
    exists rows, r; auto using row_dict_displays.
Qed.

End Entries.

Lemma listing_entries_are_displayable_witness :
  let entry :=
    {| d_user_id := "webchat:FriendMessage:c"; d_cid := "unknown";
       d_title := "对话 unknown"; d_persona_id := "";
       d_created_at := 0; d_updated_at := 0 |} in
  fst (get_all_conversations 1 20 untitled_db) = Ok ([entry], 1%Z)
  /\ (0 <= 1)%Z
  /\ forall item, In item [entry] ->
       exists rows r,
         webchat_conversation untitled_db = Some rows /\ In r rows
         /\ displays item r.
Proof.
  split; [reflexivity|].
  apply (listing_entries_are_displayable (fun q => q) untitled_db 1 20
           None None None None None).
  left. reflexivity.
Defined.

(** *** Filters *)

Lemma and3_all_true (l : list (option bool)) :
  fold_right and3 (Some true) l = Some true ->
  forall x, In x l -> x = Some true.
Proof.
  induction l as [|y l IH]; simpl; [intros _ x []|].
  intros H x [<-|Hin].
  - destruct y as [[]|], (fold_right and3 (Some true) l) as [[]|];
      simpl in H; congruence.
  - apply IH; [|exact Hin].
    destruct y as [[]|], (fold_right and3 (Some true) l) as [[]|];
      simpl in H; congruence.
Qed.

Lemma or3_some_true (l : list (option bool)) :
  fold_right or3 (Some false) l = Some true -> In (Some true) l.
Proof.
  induction l as [|y l IH]; simpl; [discriminate|].
  intros H. destruct y as [[]|]; [now left| |];
    right; apply IH;
    destruct (fold_right or3 (Some false) l) as [[]|];
    simpl in H; congruence.
Qed.

Lemma selected_by_clause (clauses : list Clause) (r : Row) (cl : Clause) :
  selected_by clauses r = true -> In cl clauses ->
  eval_clause r cl = Some true.
Proof.
  unfold selected_by. intros H Hin.
  destruct (fold_right and3 (Some true) (map (eval_clause r) clauses))
    as [[]|] eqn:E; try discriminate.
  apply (and3_all_true _ E). now apply in_map.
Qed.

Lemma any_like_true (r : Row) (tests : list (Column * string)) :
  eval_clause r (AnyLike tests) = Some true ->
  exists col pat v,
    In (col, pat) tests /\ column col r = Some v /\ like pat v = true.
Proof.
  simpl. intros H. apply or3_some_true in H.
  apply in_map_iff in H as ([col pat] & Hl & Hin).
  unfold like3 in Hl. simpl in Hl.
  destruct (column col r) as [v|] eqn:Ec; [|discriminate].
  simpl in Hl. exists col, pat, v. split; [exact Hin|]. split; congruence.
Qed.

Lemma not_like_true (r : Row) (col : Column) (pat : string) :
  eval_clause r (NotLike col pat) = Some true ->
  exists v, column col r = Some v /\ like pat v = false.
Proof.
  simpl. unfold not3, like3. simpl.
  destruct (column col r) as [v|]; [|discriminate].
  simpl. intros [= H]. exists v. split; [reflexivity|].
  now apply negb_true_iff.
Qed.

Section Filters.
Variable unicode_escape : string -> string.

(** What the filters ask of a row whose user id is [uid]. *)
Definition passes_filters
    (platforms message_types : option (list string))
    (search_query : option string)
    (exclude_ids exclude_platforms : option (list string))
    (r : Row) (uid : string) : Prop :=
  (some_items platforms <> [] ->
   exists platform,
     In platform (some_items platforms)
     /\ user_id r = Some uid /\ like (platform +:+ ":%") uid = true)
  /\ (some_items message_types <> [] ->
      exists msg_type,
        In msg_type (some_items message_types)
        /\ user_id r = Some uid
        /\ like ("%:" +:+ msg_type +:+ ":%") uid = true)
  /\ (PyStr.truthy_opt search_query = true ->
      exists col v,
        column col r = Some v
        /\ like ("%" +:+ unicode_escape (default "" search_query) +:+ "%") v
           = true)
  /\ (forall exclude_id,
        In exclude_id (some_items exclude_ids) ->
        user_id r = Some uid /\ like (exclude_id +:+ "%") uid = false)
  /\ (forall exclude_platform,
        In exclude_platform (some_items exclude_platforms) ->
        user_id r = Some uid /\ like (exclude_platform +:+ ":%") uid = false).

Lemma user_id_shown (r : Row) (v : string) :
  user_id r = Some v -> d_user_id (row_dict r) = v.
Proof. unfold row_dict. simpl. now intros ->. Qed.

Lemma selected_passes
    (platforms message_types : option (list string))
    (search_query : option string)
    (exclude_ids exclude_platforms : option (list string)) (r : Row) :
  selected_by (build_where_clauses unicode_escape platforms message_types
                 search_query exclude_ids exclude_platforms) r = true ->
  passes_filters platforms message_types search_query exclude_ids
    exclude_platforms r (d_user_id (row_dict r)).
Proof.
  intros Hsel.
  pose proof (fun cl => selected_by_clause _ r cl Hsel) as Hcl.
  unfold build_where_clauses in Hcl.
  unfold passes_filters. split; [|split; [|split; [|split]]].
  - intros Hne.
    destruct (some_items platforms) as [|p ps] eqn:E; [contradiction|].
    destruct (any_like_true r
                (map (fun platform => (col_user_id, platform +:+ ":%"))
                     (p :: ps)))
      as (col & pat & v & Hin & Hc & Hl).
    { apply Hcl. apply in_or_app. left. now left. }
    apply in_map_iff in Hin as (platform & [= <- <-] & Hin).
    exists platform. simpl in Hc.
    rewrite (user_id_shown r v Hc). auto.
  - intros Hne.
    destruct (some_items message_types) as [|t ts] eqn:E; [contradiction|].
    destruct (any_like_true r
                (map (fun msg_type =>
                        (col_user_id, "%:" +:+ msg_type +:+ ":%"))
                     (t :: ts)))
      as (col & pat & v & Hin & Hc & Hl).
    { apply Hcl. apply in_or_app. right. apply in_or_app. left. now left. }
    apply in_map_iff in Hin as (msg_type & [= <- <-] & Hin).
    exists msg_type. simpl in Hc.
    rewrite (user_id_shown r v Hc). auto.
  - intros Hq. rewrite Hq in Hcl.
    destruct (any_like_true r
                (let search_param :=
                   "%" +:+ unicode_escape (default "" search_query) +:+ "%" in
                 [ (col_title, search_param); (col_user_id, search_param);
                   (col_cid, search_param); (col_history, search_param) ]))
      as (col & pat & v & Hin & Hc & Hl).
    { apply Hcl. apply in_or_app. right. apply in_or_app. right.
      apply in_or_app. left. now left. }
    exists col, v. split; [exact Hc|].
    simpl in Hin.
    destruct Hin as [[= <- <-]|[[= <- <-]|[[= <- <-]|[[= <- <-]|[]]]]];
      exact Hl.
  - intros e Hin.
    destruct (not_like_true r col_user_id (e +:+ "%")) as (v & Hc & Hl).
    { apply Hcl. apply in_or_app. right. apply in_or_app. right.
      apply in_or_app. right. apply in_or_app. left.
      apply in_map_iff. exists e. auto. }
    simpl in Hc. rewrite (user_id_shown r v Hc). auto.
  - intros e Hin.
    destruct (not_like_true r col_user_id (e +:+ ":%")) as (v & Hc & Hl).
    { apply Hcl. apply in_or_app. right. apply in_or_app. right.
      apply in_or_app. right. apply in_or_app. right.
      apply in_map_iff. exists e. auto. }
    simpl in Hc. rewrite (user_id_shown r v Hc). auto.
Qed.

(** Every entry that [get_filtered_conversations] returns, on whatever
    page, is built from a stored row that passes every filter in use:
    its user id matches [platform:%] for one of the platforms and
    [%:msg_type:%] for one of the message types, one of its title, user
    id, cid and history contains the escaped search text, and its user
    id matches none of [exclude_id%] and [exclude_platform:%] (so a row
    without user id is never listed once a filter on it is in use).
    The plain listing of the same page returns as well, and its total
    is at least the filtered total. *)
Theorem filtered_entries_pass_filters
    (db : SQLiteDatabase) (page page_size : Z)
    (platforms message_types : option (list string))
    (search_query : option string)
    (exclude_ids exclude_platforms : option (list string))
    (items : list ConversationDict) (total : Z) :
  fst (get_filtered_conversations unicode_escape page page_size platforms
         message_types search_query exclude_ids exclude_platforms db)
  = Ok (items, total) ->
  (forall item, In item items ->
     exists rows r,
       webchat_conversation db = Some rows /\ In r rows
       /\ item = row_dict r
       /\ passes_filters platforms message_types search_query exclude_ids
            exclude_platforms r (d_user_id item))
  /\ exists items_all total_all,
       fst (get_all_conversations page page_size db)
       = Ok (items_all, total_all)
       /\ (total <= total_all)%Z.
Proof.
  intros Hret. split.
  - apply listing_of_selected in Hret as [_ Hitems].
    intros item Hin.
    destruct (Hitems item Hin) as (rows & r & Htab & Hr & Hsel & ->).
    exists rows, r. split; [exact Htab|]. split; [exact Hr|].
    split; [reflexivity|]. now apply selected_passes.
  - destruct (listing_returns db _ items total Hret)
      as (db1 & He & Ht1 & Hcase).
    unfold get_all_conversations, bind, try_except. rewrite He.
    pose proof (count_and_page_outcome db1 (fun _ => true) page page_size)
      as Hall.
    destruct Hcase as [Hbody|[-> ->]].
    + cbv zeta in Hbody.
      destruct (count_and_page_items _ _ _ _ _ _ Hbody)
        as (rows & Htab & -> & _).
      rewrite count_and_page_outcome, Htab in Hbody.
      rewrite Htab in Hall.
      destruct (int64 page_size); [|discriminate].
      destruct (int64 ((page - 1) * page_size)); [|discriminate].
      destruct (count_and_page (fun _ => true) page page_size db1)
        as [res db2]. simpl in Hall. subst res. simpl.
      eexists _, _. split; [reflexivity|].
      rewrite filter_true.
      apply inj_le.
      clear. induction rows as [|r rows IH]; simpl; [lia|].
      destruct (selected_by _ r); simpl; lia.
    + destruct (count_and_page (fun _ => true) page page_size db1)
        as [[[i t]|e] db2] eqn:E; simpl.
      * exists i, t. split; [reflexivity|].
        assert (fst (count_and_page (fun _ => true) page page_size db1)
                = Ok (i, t)) as E' by now rewrite E.
        destruct (count_and_page_items _ _ _ _ _ _ E') as (rows & _ & -> & _).
        lia.
      * exists [], 0%Z. split; [reflexivity|lia].
Qed.

(** With no filter in use ([None], an empty list, an empty search
    text), the filtered listing is the plain listing: same entries,
    same total, same failures. *)
Theorem filtered_without_filters_is_plain_listing
    (db : SQLiteDatabase) (page page_size : Z)
    (platforms message_types : option (list string))
    (search_query : option string)
    (exclude_ids exclude_platforms : option (list string)) :
  some_items platforms = [] ->
  some_items message_types = [] ->
  PyStr.truthy_opt search_query = false ->
  some_items exclude_ids = [] ->
  some_items exclude_platforms = [] ->
  get_filtered_conversations unicode_escape page page_size platforms
    message_types search_query exclude_ids exclude_platforms db
  = get_all_conversations page page_size db.
Proof.
  intros H1 H2 H3 H4 H5.
  unfold get_filtered_conversations, build_where_clauses.
  rewrite H1, H2, H3, H4, H5. reflexivity.
Qed.

End Filters.

Lemma filtered_entries_pass_filters_witness :
  fst (get_filtered_conversations (fun q => q) 1 20
         (Some ["test_platform"]) None None None (Some ["webchat"]) sample_db)
  = Ok (map row_dict
          [ sample_row "test_platform:GroupMessage:b" "c2" 30;
            sample_row "test_platform:FriendMessage:a" "c1" 10 ], 2%Z)
  /\ exists items_all total_all,
       fst (get_all_conversations 1 20 sample_db) = Ok (items_all, total_all)
       /\ (2 <= total_all)%Z.
Proof.
  split; [reflexivity|].
  apply (filtered_entries_pass_filters (fun q => q) sample_db 1 20
           (Some ["test_platform"]) None None None (Some ["webchat"])
           (map row_dict
              [ sample_row "test_platform:GroupMessage:b" "c2" 30;
                sample_row "test_platform:FriendMessage:a" "c1" 10 ])).
  reflexivity.
Defined.

Lemma filtered_without_filters_is_plain_listing_witness :
  some_items (Some []) = []
  /\ PyStr.truthy_opt (Some "") = false
  /\ get_filtered_conversations (fun q => q) 2 1
       (Some []) None (Some "") (Some []) None sample_db
     = get_all_conversations 2 1 sample_db.
Proof.
  split; [reflexivity|]. split; [reflexivity|].
  apply (filtered_without_filters_is_plain_listing (fun q => q) sample_db 2 1
           (Some []) None (Some "") (Some []) None); reflexivity.
Defined.

End SQLiteListingProps.

(** ** The JSON plugin storage: durability, keys, damaged files *)
Module JSONStorageDurability.
Module JS := JSONStorage.
Import JSONStorageProps.

Section Durability.
Context {Value : Type} {json : JS.JSON Value}.
Variable PyNone : Value.

Local Abbreviation State := (@JS.State Value).

(** The process is started again over the directory as it is. *)
Definition restarted (s : State) : State := JS.fresh_storage (JS.files s).

(** What a process started now would hold for a plugin is what this
    process holds for it, every value as it comes back from JSON. *)
Definition in_sync (p : string) (s : State) : Prop :=
  JS.stored p (restarted s) = JS.json_roundtrip <$> JS.stored p s.

Lemma stored_fresh (p : string) (dir : gmap string (@JS.FileContent Value)) :
  JS.stored p (JS.fresh_storage dir)
  = match dir !! JS._get_plugin_file_path p with
    | Some (JS.Decoded d) => JS.json_roundtrip <$> d
    | _ => ∅
    end.
Proof. unfold JS.stored. simpl. now rewrite lookup_empty. Qed.

Lemma fresh_valid (dir : gmap string (@JS.FileContent Value)) :
  JS.cache_valid (JS.fresh_storage dir).
Proof. intros p data. simpl. now rewrite lookup_empty. Qed.

Lemma get_stored (p k : string) (s : State) :
  JS.cache_valid s ->
  fst (JS.get PyNone p k s) = default PyNone (JS.stored p s !! k).
Proof. intros Hv. now destruct (get_spec PyNone p k s Hv). Qed.

Lemma set_in_sync (p k : string) (v : Value) (s : State) :
  JS.cache_valid s -> in_sync p (JS.set p k v s).
Proof.
  intros Hv. destruct (set_spec p k v s Hv) as (_ & Hs & Hf).
  unfold in_sync, restarted. now rewrite stored_fresh, Hf, Hs.
Qed.

Lemma delete_in_sync (p k : string) (s : State) :
  JS.cache_valid s -> in_sync p s -> in_sync p (JS.delete p k s).
Proof.
  intros Hv Hsync. unfold JS.delete.
  destruct (load_spec p s Hv) as (data & s1 & Hl & Hf & Hv1 & Hd & Hs).
  rewrite Hl, (deref_lookup _ _ _ Hd).
  destruct (bool_decide (is_Some (JS.stored p s !! k))).
  - destruct (mutate_save_spec p s1 data _ (fun d => base.delete k d) Hv1 Hd)
      as (_ & H2 & H3).
    unfold in_sync, restarted. now rewrite stored_fresh, H3, H2.
  - unfold in_sync, restarted in *. now rewrite Hf, Hs.
Qed.

Lemma clear_plugin_spec (p : string) (s : State) :
  JS.stored p (JS.clear_plugin p s) = ∅
  /\ JS.files (JS.clear_plugin p s) !! JS._get_plugin_file_path p
     = Some (JS.Decoded ∅)
  /\ in_sync p (JS.clear_plugin p s).
Proof.
  assert (JS.files (JS.clear_plugin p s) !! JS._get_plugin_file_path p
          = Some (@JS.Decoded Value ∅)) as Hf.
  { unfold JS.clear_plugin. simpl. rewrite lookup_insert_eq.
    unfold JS.deref. simpl.
    now rewrite list_lookup_middle by reflexivity. }
  assert (JS.stored p (JS.clear_plugin p s) = ∅) as Hs.
  { unfold JS.stored. rewrite Hf.
    unfold JS.clear_plugin at 1. simpl. rewrite lookup_delete_eq.
    apply fmap_empty. }
  split; [exact Hs|]. split; [exact Hf|].
  unfold in_sync, restarted. rewrite stored_fresh, Hf, Hs.
  now rewrite !fmap_empty.
Qed.

(** Durability.  What [set] stores is on disk: a process started again
    over the directory reads the value back as it comes back from JSON
    (a tuple as a list), hence unchanged when it is a value that JSON
    gives back unchanged.  After [set], [delete] and [clear_plugin], and
    in a new process, a restart changes what is stored for the plugin by
    no more than that; [delete] and [get] keep that agreement when it
    held before.  A key that was deleted, and every key of a plugin
    that was cleared, reads [None], in the process and after a
    restart. *)
Theorem storage_survives_restart
    (s : State) (p k : string) (v : Value) :
  JS.cache_valid s ->
  fst (JS.get PyNone p k (restarted (JS.set p k v s))) = JS.json_roundtrip v
  /\ (JS.json_roundtrip v = v ->
      fst (JS.get PyNone p k (restarted (JS.set p k v s))) = v)
  /\ in_sync p (JS.set p k v s)
  /\ (in_sync p s ->
      in_sync p (JS.delete p k s)
      /\ fst (JS.get PyNone p k (restarted (JS.delete p k s))) = PyNone)
  /\ in_sync p (JS.clear_plugin p s)
  /\ fst (JS.get PyNone p k (JS.clear_plugin p s)) = PyNone
  /\ fst (JS.get PyNone p k (restarted (JS.clear_plugin p s))) = PyNone
  /\ (in_sync p s -> in_sync p (snd (JS.get PyNone p k s)))
  /\ ((forall x : Value,
          JS.json_roundtrip (JS.json_roundtrip x) = JS.json_roundtrip x) ->
      forall dir, in_sync p (JS.fresh_storage dir)).
Proof.
  intros Hv.
  pose proof (set_in_sync p k v s Hv) as Hset.
  destruct (set_spec p k v s Hv) as (_ & Hss & _).
  destruct (clear_plugin_spec p s) as (Hcs & _ & Hcsync).
  assert (fst (JS.get PyNone p k (restarted (JS.set p k v s)))
          = JS.json_roundtrip v) as Hback.
  { rewrite get_stored by apply fresh_valid.
    unfold in_sync in Hset.
    now rewrite Hset, Hss, lookup_fmap, lookup_insert_eq. }
  split; [exact Hback|].
  split; [intros Hsame; now rewrite Hback|].
  split; [exact Hset|].
  split.
  { intros Hsync. pose proof (delete_in_sync p k s Hv Hsync) as Hd.
    split; [exact Hd|].
    rewrite get_stored by apply fresh_valid.
    unfold in_sync in Hd. rewrite Hd.
    destruct (delete_spec p k s Hv) as (_ & -> & _).
    now rewrite lookup_fmap, lookup_delete_eq. }
  split; [exact Hcsync|].
  split.
  { rewrite get_stored by now apply clear_plugin_valid.
    now rewrite Hcs. }
  split.
  { rewrite get_stored by apply fresh_valid.
    unfold in_sync in Hcsync. now rewrite Hcsync, Hcs, fmap_empty. }
  split.
  { intros Hsync.
    destruct (get_spec PyNone p k s Hv) as (_ & _ & Hf & Hs).
    unfold in_sync, restarted in *. now rewrite Hf, Hs. }
  intros Hidem dir. unfold in_sync, restarted. simpl.
  rewrite stored_fresh.
  destruct (dir !! JS._get_plugin_file_path p) as [[|d]|];
    try (now rewrite fmap_empty).
  rewrite <- map_fmap_compose. apply map_fmap_ext.
  intros i x _. simpl. now rewrite Hidem.
Qed.

(** Keys of one plugin do not interfere: [set] and [delete] of a key
    leave what [get] returns for every other key of the plugin. *)
Theorem other_keys_are_untouched
    (s : State) (p k k' : string) (v : Value) :
  JS.cache_valid s ->
  k <> k' ->
  fst (JS.get PyNone p k' (JS.set p k v s)) = fst (JS.get PyNone p k' s)
  /\ fst (JS.get PyNone p k' (JS.delete p k s)) = fst (JS.get PyNone p k' s).
Proof.
  intros Hv Hne.
  destruct (set_spec p k v s Hv) as (Hvs & Hss & _).
  destruct (delete_spec p k s Hv) as (Hvd & Hsd & _).
  rewrite !get_stored by assumption.
  rewrite Hss, Hsd.
  now rewrite lookup_insert_ne, lookup_delete_ne by exact Hne.
Qed.


End Durability.

Lemma storage_survives_restart_witness :
  JS.cache_valid (@JS.empty_storage JS.SampleValue)
  /\ fst (JS.get JS.SNone "plugin" "key"
            (restarted (JS.set "plugin" "key" (JS.STuple ["a"; "b"])
                               JS.empty_storage)))
     = JS.SList ["a"; "b"]
  /\ fst (JS.get JS.SNone "plugin" "key"
            (JS.set "plugin" "key" (JS.STuple ["a"; "b"]) JS.empty_storage))
     = JS.STuple ["a"; "b"]
  /\ in_sync "plugin"
       (JS.set "plugin" "key" (JS.STuple ["a"; "b"]) JS.empty_storage).
Proof.
  split; [exact empty_storage_valid|].
  destruct (storage_survives_restart JS.SNone JS.empty_storage "plugin" "key"
              (JS.STuple ["a"; "b"]) empty_storage_valid) as (H1 & _ & H3 & _).
  split; [exact H1|]. split; [|exact H3].
  rewrite get_stored by (apply set_spec, empty_storage_valid).
  destruct (set_spec "plugin" "key" (JS.STuple ["a"; "b"]) JS.empty_storage
              empty_storage_valid) as (_ & -> & _).
  now rewrite lookup_insert_eq.
Defined.

Lemma other_keys_are_untouched_witness :
  JS.cache_valid (JS.set "plugin" "a" "1" (@JS.empty_storage string))
  /\ "b" <> "a"
  /\ fst (JS.get "" "plugin" "a"
            (JS.set "plugin" "b" "2" (JS.set "plugin" "a" "1" JS.empty_storage)))
     = fst (JS.get "" "plugin" "a" (JS.set "plugin" "a" "1" JS.empty_storage)).
Proof.
  assert (JS.cache_valid (JS.set "plugin" "a" "1" (@JS.empty_storage string)))
    as Hv by (apply set_spec, empty_storage_valid).
  assert ("b" <> "a") as Hne by discriminate.
  split; [exact Hv|]. split; [exact Hne|].
  exact (proj1 (other_keys_are_untouched "" _ "plugin" "b" "a" "2" Hv Hne)).
Defined.


End JSONStorageDurability.

(** ** The Misskey sender: reply target, base send; incoming notes *)
Module MisskeyFlow.
Import Components PyStr Misskey MisskeyProps.

(** The reply id that the loop ends with is the id of the last [Reply]
    of the chain. *)
Lemma collect_reply_id (chain : MessageChain) :
  snd (collect_all chain) = last (reply_ids chain).
Proof.
  unfold collect_all.
  induction chain as [|c chain IH] using rev_ind; [reflexivity|].
  rewrite fold_left_app. simpl.
  unfold reply_ids in *. rewrite flat_map_app. simpl.
  destruct (fold_left collect chain ([], None)) as [parts rid].
  simpl in IH. subst rid.
  destruct c; simpl; rewrite ?app_nil_r; try reflexivity.
  now rewrite last_snoc.
Qed.

Lemma posted_payloads_app (l1 l2 : list Effect) :
  posted_payloads (l1 ++ l2) = posted_payloads l1 ++ posted_payloads l2.
Proof. unfold posted_payloads. apply flat_map_app. Qed.

Lemma super_sends_app (l1 l2 : list Effect) :
  super_sends (l1 ++ l2) = super_sends l1 ++ super_sends l2.
Proof. unfold super_sends. apply flat_map_app. Qed.

Lemma send_note_payload (ad : MisskeyPlatformAdapter) (t : string)
    (rid : option string) (v : string) :
  posted_payloads (snd (send_note ad t rid v))
  = [ {| i := access_token ad; text := t; visibility := v;
         replyId := if truthy_opt rid then rid else None |} ]
  /\ super_sends (snd (send_note ad t rid v)) = [].
Proof. unfold send_note. destruct (network ad _ _); split; reflexivity. Qed.

(** What [send] asks the platform to create when it posts. *)
Lemma send_payload (self : MisskeyPlatformEvent) (ad : MisskeyPlatformAdapter)
    (message : MessageChain) :
  adapter self = Some ad ->
  fst (collect_all message) <> [] ->
  posted_payloads (send self message)
  = [ {| i := access_token ad;
         text := join (fst (collect_all message));
         visibility := "public";
         replyId :=
           let rid := last (reply_ids message) in
           let chosen :=
             if truthy_dict (original_note self) && negb (truthy_opt rid)
             then default ∅ (original_note self) !! "id"
             else rid in
           if truthy_opt chosen then chosen else None |} ].
Proof.
  intros Had Hne. unfold send. rewrite Had.
  rewrite <- collect_reply_id.
  destruct (collect_all message) as [parts rid]. simpl in *.
  destruct parts as [|p parts]; [contradiction|].
  destruct (send_note _ _ _ _) as [result effects] eqn:E.
  rewrite !posted_payloads_app.
  change effects with (snd (result, effects)). rewrite <- E.
  rewrite (proj1 (send_note_payload _ _ _ _)).
  destruct (truthy_dict result); reflexivity.
Qed.

(** The note that [send] posts replies to the last [Reply] component of
    the chain when that component's id is not empty; otherwise to the
    note the event came from, when the event has one with an id that is
    not empty; otherwise to nothing.  Earlier [Reply] components are
    ignored. *)
Theorem send_reply_target
    (self : MisskeyPlatformEvent) (ad : MisskeyPlatformAdapter)
    (message : MessageChain) :
  adapter self = Some ad ->
  fst (collect_all message) <> [] ->
  exists payload,
    posted_payloads (send self message) = [payload]
    /\ (forall id, last (reply_ids message) = Some id -> truthy id = true ->
          replyId payload = Some id)
    /\ (truthy_opt (last (reply_ids message)) = false ->
        forall note id,
          original_note self = Some note -> note !! "id" = Some id ->
          truthy id = true ->
          replyId payload = Some id)
    /\ (truthy_opt (last (reply_ids message)) = false ->
        truthy_opt (default ∅ (original_note self) !! "id") = false ->
        replyId payload = None).
Proof.
  intros Had Hne. eexists.
  split; [exact (send_payload self ad message Had Hne)|]. simpl.
  split; [|split].
  - intros id Hlast Hid. rewrite Hlast. simpl. rewrite Hid.
    rewrite andb_false_r. simpl. now rewrite Hid.
  - intros Hrid note id Hnote Hlook Hid. rewrite Hrid, Hnote. simpl.
    assert (bool_decide (note = ∅) = false) as Hnon.
    { apply bool_decide_eq_false. intros ->.
      rewrite lookup_empty in Hlook. discriminate. }
    rewrite Hnon. simpl. rewrite Hlook. simpl. now rewrite Hid.
  - intros Hrid Horig. rewrite Hrid. rewrite andb_true_r.
    destruct (truthy_dict (original_note self)).
    + now rewrite Horig.
    + now rewrite Hrid.
Qed.

Lemma send_reply_target_witness :
  let self :=
    {| adapter := Some accepting_adapter;
       original_note := Some {[ "id" := "n7" ]} |} in
  adapter self = Some accepting_adapter
  /\ fst (collect_all [Reply "r1" "u"; Plain "a"; Reply "r2" "u"]) <> []
  /\ (exists payload,
        posted_payloads (send self [Reply "r1" "u"; Plain "a"; Reply "r2" "u"])
        = [payload]
        /\ replyId payload = Some "r2")
  /\ (exists payload,
        posted_payloads (send self [Plain "a"]) = [payload]
        /\ replyId payload = Some "n7").
Proof.
  intros self.
  assert (fst (collect_all [Reply "r1" "u"; Plain "a"; Reply "r2" "u"]) <> [])
    as H1 by discriminate.
  assert (fst (collect_all [Plain "a"]) <> []) as H2 by discriminate.
  split; [reflexivity|]. split; [exact H1|]. split.
  - destruct (send_reply_target self accepting_adapter
                [Reply "r1" "u"; Plain "a"; Reply "r2" "u"] eq_refl H1)
      as (payload & Hp & Hlast & _).
    exists payload. split; [exact Hp|]. now apply Hlast.
  - destruct (send_reply_target self accepting_adapter [Plain "a"] eq_refl H2)
      as (payload & Hp & _ & Horig & _).
    exists payload. split; [exact Hp|].
    apply (Horig eq_refl {[ "id" := "n7" ]} "n7"); reflexivity.
Defined.

(** The base class's [send], which records that the event was answered,
    is called once for each note that [send] asks the platform to
    create, whether or not the platform creates it, and is not called
    when nothing is posted (no adapter, or no text part). *)
Theorem base_send_follows_the_post
    (self : MisskeyPlatformEvent) (message : MessageChain) :
  super_sends (send self message)
  = map (fun _ => message) (posted_payloads (send self message))
  /\ length (posted_payloads (send self message)) <= 1.
Proof.
  unfold send. destruct (adapter self) as [ad|]; [|split; simpl; auto].
  destruct (collect_all message) as [parts rid].
  destruct parts as [|p parts]; [split; simpl; auto|].
  destruct (send_note _ _ _ _) as [result effects] eqn:E.
  rewrite !posted_payloads_app, !super_sends_app.
  change effects with (snd (result, effects)). rewrite <- E.
  destruct (send_note_payload ad (join (p :: parts))
              (if truthy_dict (original_note self) && negb (truthy_opt rid)
               then default ∅ (original_note self) !! "id" else rid)
              "public") as [-> ->].
  destruct (truthy_dict result); split; simpl; auto.
Qed.

(** An instance that refuses every note. *)
Example base_send_after_refusal :
  let refusing :=
    {| instance_url := "https://misskey.io"; access_token := "token";
       network := fun _ _ => StatusOther 400 "bad request" |} in
  send {| adapter := Some refusing; original_note := None |} [Plain "hi"]
  = [ HttpPost "https://misskey.io/api/notes/create"
        {| i := "token"; text := "hi"; visibility := "public";
           replyId := None |};
      Log ERROR "Failed to send note: 400 - bad request";
      Log ERROR "Failed to send Misskey note";
      SuperSend [Plain "hi"] ].
Proof. reflexivity. Qed.

(** *** Incoming notes *)

(** [should_process_note] answers yes only for a note of somebody else
    (the author's id differs from the bot's) that is a reply while
    replies are listened to, or whose text holds ["@"] followed by the
    bot's user name while mentions are listened to; in particular a note
    written by the bot itself is never processed, and nothing is when the
    bot's user information is missing or both kinds of listening are
    off. *)
Theorem should_process_note_sound (self : Listener) (note_data : Note) :
  should_process_note self note_data = Returns true ->
  exists info author,
    bot_user_info self = Some info
    /\ dict_get_default (n_user note_data) no_user = Some author
    /\ dict_get (nu_id author) <> dict_get_default (b_id info) ""
    /\ ((listen_replies self = true
         /\ exists id, n_replyId note_data = Val id /\ truthy id = true)
        \/ (listen_mentions self = true
            /\ exists text,
                 dict_get_default (n_text note_data) "" = Some text
                 /\ contains text
                      (at_name (dict_get_default (b_username info) ""))
                    = true)).
Proof.
  unfold should_process_note.
  destruct (bot_user_info self) as [info|]; [|discriminate].
  destruct (dict_get_default (n_user note_data) no_user) as [author|];
    [|discriminate].
  destruct (bool_decide _) eqn:Eown; [discriminate|].
  apply bool_decide_eq_false in Eown.
  destruct (listen_replies self && _) eqn:Er.
  - intros _. exists info, author. repeat (split; [easy|]). left.
    apply andb_true_iff in Er as [Hl Ht]. split; [exact Hl|].
    destruct (n_replyId note_data) as [| |id]; try discriminate.
    exists id. auto.
  - destruct (listen_mentions self) eqn:Em; [|discriminate].
    destruct (dict_get_default (n_text note_data) "") as [text|];
      [|discriminate].
    destruct (contains text _) eqn:Ec; [|discriminate].
    intros _. exists info, author. repeat (split; [easy|]). right.
    split; [reflexivity|]. exists text. auto.
Qed.

(** A listener for the bot "astrbot" with id "bot1". *)
Definition sample_listener : Listener :=
  {| bot_user_info :=
       Some {| b_username := Val "astrbot"; b_id := Val "bot1" |};
     listen_mentions := true;
     listen_replies := true |}.

Definition sample_note (author text : string) : Note :=
  {| n_user := Val {| nu_id := Val author; nu_name := Absent;
                      nu_username := Absent |};
     n_text := Val text; n_id := Val "n1"; n_replyId := Absent |}.

Lemma should_process_note_sound_witness :
  should_process_note sample_listener (sample_note "u1" "hello @astrbot")
  = Returns true
  /\ should_process_note sample_listener (sample_note "bot1" "hello @astrbot")
     = Returns false
  /\ exists info author,
       bot_user_info sample_listener = Some info
       /\ dict_get_default (n_user (sample_note "u1" "hello @astrbot")) no_user
          = Some author
       /\ dict_get (nu_id author) <> dict_get_default (b_id info) "".
Proof.
  split; [reflexivity|]. split; [reflexivity|].
  destruct (should_process_note_sound sample_listener
              (sample_note "u1" "hello @astrbot") eq_refl)
    as (info & author & H1 & H2 & H3 & _).
  exists info, author. auto.
Defined.

End MisskeyFlow.

(** ** Finding FFmpeg *)
Module FFmpegProps.
Import FFmpeg.

Lemma first_executable_spec (m : Machine) (paths : list string) :
  match first_executable m paths with
  | Some path =>
      exists before after,
        paths = before ++ path :: after
        /\ executable m path = true
        /\ forallb (fun p => negb (executable m p)) before = true
  | None => forallb (fun p => negb (executable m p)) paths = true
  end.
Proof.
  induction paths as [|p paths IH]; simpl; [reflexivity|].
  destruct (executable m p) eqn:E.
  - exists [], paths. auto.
  - destruct (first_executable m paths) as [path|].
    + destruct IH as (before & after & -> & Hx & Hb).
      exists (p :: before), after. simpl. rewrite E. auto.
    + exact IH.
Qed.

(** The two functions agree on where FFmpeg is.
    [get_ffmpeg_path_or_none] returns [None] exactly when FFmpeg is
    neither on the PATH nor executable at one of the four fallback
    locations, and then [get_ffmpeg_path] returns the bare name
    "ffmpeg" (it never fails); otherwise both return the same thing:
    "ffmpeg" when it is on the PATH, whatever the fallback locations
    hold, and else the first fallback location that is executable. *)
Theorem ffmpeg_path_found (m : Machine) :
  (get_ffmpeg_path_or_none m = None
   <-> PyStr.truthy_opt (which_ffmpeg m) = false
       /\ forallb (fun p => negb (executable m p)) fallback_paths = true)
  /\ (get_ffmpeg_path_or_none m = None -> get_ffmpeg_path m = "ffmpeg")
  /\ (forall path,
        get_ffmpeg_path_or_none m = Some path ->
        get_ffmpeg_path m = path
        /\ ((path = "ffmpeg" /\ PyStr.truthy_opt (which_ffmpeg m) = true)
            \/ (PyStr.truthy_opt (which_ffmpeg m) = false
                /\ executable m path = true
                /\ exists before after,
                     fallback_paths = before ++ path :: after
                     /\ forallb (fun p => negb (executable m p)) before
                        = true))).
Proof.
  unfold get_ffmpeg_path_or_none, get_ffmpeg_path.
  destruct (PyStr.truthy_opt (which_ffmpeg m)) eqn:Ew.
  - simpl. split; [split; [discriminate|intros [? _]; discriminate]|].
    split; [discriminate|]. intros path [= <-]. auto.
  - pose proof (first_executable_spec m fallback_paths) as Hf.
    destruct (first_executable m fallback_paths) as [found|] eqn:Ef.
    + destruct Hf as (before & after & Hsplit & Hx & Hb).
      assert (String.eqb found "ffmpeg" = false) as Hname.
      { assert (In found fallback_paths) as Hin.
        { rewrite Hsplit. apply in_or_app. right. now left. }
        simpl in Hin.
        destruct Hin as [<-|[<-|[<-|[<-|[]]]]]; reflexivity. }
      rewrite Hname, Hx.
      split; [split; [discriminate|]|].
      * intros [_ Hall]. exfalso.
        rewrite Hsplit, forallb_app in Hall. simpl in Hall.
        rewrite Hx in Hall. simpl in Hall.
        now rewrite andb_false_r in Hall.
      * split; [discriminate|]. intros path [= <-].
        split; [reflexivity|]. right. eauto 8.
    + simpl. split; [split; auto|]. split; [reflexivity|discriminate].
Qed.

(** In the Docker image the fallback is found. *)
Example ffmpeg_in_docker :
  get_ffmpeg_path docker_machine = "/root/.pyffmpeg/bin/ffmpeg"
  /\ get_ffmpeg_path_or_none docker_machine
     = Some "/root/.pyffmpeg/bin/ffmpeg".
Proof. split; reflexivity. Qed.

End FFmpegProps.

(** ** The assembler's loop: nothing blank, skipping is idempotent *)
Module RespondLoopProps.
Import Components Respond RespondProps.

Section Loop.
Variable is_empty : Component -> bool.
Variable decorated_comps : MessageChain.

Local Abbreviation kept := (List.filter (fun c => negb (is_empty c))).

Lemma kept_twice (comps : MessageChain) : kept (kept comps) = kept comps.
Proof.
  induction comps as [|c comps IH]; simpl; [reflexivity|].
  destruct (is_empty c) eqn:E; simpl; [exact IH|].
  now rewrite E, IH.
Qed.

(** Of the loop of the segmented reply: every message sent ends with a
    component that is not empty, so no message is blank; nothing at all
    is sent exactly when every component is empty; read in order, the
    messages sent hold the decoration components once, in front, and
    then each component that is not empty once, in the original order
    (and nothing when every component is empty); and removing the empty
    components beforehand changes nothing. *)
Theorem segments_are_never_blank (comps : MessageChain) :
  Forall (fun message =>
            exists c, last message = Some c /\ is_empty c = false)
         (send_segments is_empty decorated_comps comps)
  /\ (send_segments is_empty decorated_comps comps = []
      <-> forallb is_empty comps = true)
  /\ concat (send_segments is_empty decorated_comps comps)
     = (if forallb is_empty comps then [] else decorated_comps)
       ++ kept comps
  /\ send_segments is_empty decorated_comps (kept comps)
     = send_segments is_empty decorated_comps comps.
Proof.
  rewrite send_segments_concat.
  rewrite !send_segments_expected. unfold expected_segments.
  rewrite kept_twice.
  assert (forall l, Forall (fun c => is_empty c = false) (kept l)) as Hkept.
  { intros l. apply List.Forall_forall. intros c Hin.
    apply filter_In in Hin as [_ Hc]. now apply negb_true_iff. }
  assert (kept comps = [] <-> forallb is_empty comps = true) as Hnone.
  { clear. induction comps as [|c comps IH]; simpl; [easy|].
    destruct (is_empty c); simpl; [exact IH|].
    split; discriminate. }
  specialize (Hkept comps).
  destruct (kept comps) as [|c rest] eqn:E.
  - split; [constructor|]. split; [split; [intros _; now apply Hnone|easy]|].
    split; [|reflexivity].
    rewrite (proj1 Hnone eq_refl). reflexivity.
  - inversion Hkept as [|c' l' Hc Hrest]; subst.
    split.
    { constructor.
      - exists c. split; [apply last_snoc | exact Hc].
      - clear -Hrest. induction Hrest as [|x l Hx _ IH]; simpl;
          constructor; [|exact IH].
        exists x. split; [reflexivity | exact Hx]. }
    split.
    { split; [discriminate|]. intros Hall.
      apply (proj2 Hnone) in Hall. discriminate. }
    split; [|reflexivity].
    destruct (forallb is_empty comps) eqn:Hall; [|reflexivity].
    discriminate (proj2 Hnone eq_refl).
Qed.

End Loop.

End RespondLoopProps.

(** ** The Matrix session sender: every component gets its turn *)
Module MatrixProps.
Import Matrix.

(** The room message a component asks for, if any: the text of a
    [Plain] as it is; a text placeholder for an [Image] that has a file
    or a URL and for a [File]. *)
Definition message_for (c : Component) : list Content :=
  match c with
  | Plain text => [ {| msgtype := "m.text"; body := text |} ]
  | Image file url filename =>
      if PyStr.truthy_opt (or_else file url)
      then [ {| msgtype := "m.text";
                body := "[图片] " +:+ (if PyStr.truthy_opt filename
                                        then default "" filename
                                        else "image") |} ]
      else []
  | File name =>
      [ {| msgtype := "m.text"; body := "[文件] " +:+ default "None" name |} ]
  | Other _ => []
  end.

Section Client.
Variable room_send :
  list Effect -> string -> string -> Content -> option string.

Lemma room_sends_app (xs ys : list Effect) :
  room_sends (xs ++ ys) = room_sends xs ++ room_sends ys.
Proof. unfold room_sends. now rewrite !flat_map_app. Qed.

Lemma errors_app (xs ys : list Effect) :
  errors (xs ++ ys) = errors xs ++ errors ys.
Proof. unfold errors. now rewrite !flat_map_app. Qed.

Lemma try_room_send_calls (handler room_id : string) (content : Content)
    (done : list Effect) :
  room_sends (try_room_send room_send handler room_id content done)
  = room_sends done ++ [(room_id, content)].
Proof.
  unfold try_room_send.
  destruct (room_send done room_id "m.room.message" content);
    now rewrite room_sends_app.
Qed.

Lemma try_room_send_errors (handler room_id : string) (content : Content)
    (done : list Effect) :
  length (errors done)
  <= length (errors (try_room_send room_send handler room_id content done))
  <= S (length (errors done)).
Proof.
  unfold try_room_send.
  destruct (room_send done room_id "m.room.message" content);
    rewrite errors_app, length_app; simpl; lia.
Qed.

Lemma send_component_calls (room_id : string) (done : list Effect)
    (c : Component) :
  room_sends (send_component room_send room_id done c)
  = room_sends done ++ map (pair room_id) (message_for c).
Proof.
  destruct c as [text|file url filename|name|ty]; simpl.
  - apply try_room_send_calls.
  - unfold _send_image.
    destruct (PyStr.truthy_opt (or_else file url)); simpl.
    + rewrite try_room_send_calls. do 3 f_equal.
      unfold or_else, format.
      destruct (PyStr.truthy_opt filename) eqn:E; [|reflexivity].
      destruct filename; [reflexivity|discriminate].
    + rewrite room_sends_app. reflexivity.
  - unfold _send_file. apply try_room_send_calls.
  - now rewrite app_nil_r.
Qed.

Lemma send_component_errors (room_id : string) (done : list Effect)
    (c : Component) :
  length (errors done)
  <= length (errors (send_component room_send room_id done c))
  <= S (length (errors done)).
Proof.
  destruct c as [text|file url filename|name|ty]; simpl.
  - apply try_room_send_errors.
  - unfold _send_image.
    destruct (PyStr.truthy_opt (or_else file url)); simpl.
    + apply try_room_send_errors.
    + rewrite errors_app, length_app. simpl. lia.
  - apply try_room_send_errors.
  - lia.
Qed.

Lemma loop_calls (room_id : string) (chain : list Component)
    (done : list Effect) :
  room_sends (fold_left (send_component room_send room_id) chain done)
  = room_sends done
    ++ flat_map (fun c => map (pair room_id) (message_for c)) chain.
Proof.
  revert done. induction chain as [|c chain IH]; intros done; simpl.
  - now rewrite app_nil_r.
  - rewrite IH, send_component_calls. now rewrite <- app_assoc.
Qed.

Lemma loop_errors (room_id : string) (chain : list Component)
    (done : list Effect) :
  length (errors (fold_left (send_component room_send room_id) chain done))
  <= length (errors done) + length chain.
Proof.
  revert done. induction chain as [|c chain IH]; intros done; simpl.
  - lia.
  - pose proof (send_component_errors room_id done c).
    specialize (IH (send_component room_send room_id done c)). lia.
Qed.

(** [send_by_session] gives every component its turn, whatever the
    homeserver answers: with a room id, the calls of [room_send] it
    makes are, in the order of the chain, one for each [Plain] (its
    text as it is, blank or not), one for each [Image] that has a file
    or a URL and one for each [File] (a text placeholder), none for
    other components; a call that raises stops none of the later
    ones, and at most one error is logged for each component.  Without
    a room id it makes no call and logs one error. *)
Theorem send_by_session_gives_every_component_its_turn
    (room_id : string) (message_chain : list Component) :
  let effects := send_by_session room_send room_id message_chain in
  if PyStr.truthy room_id
  then room_sends effects
       = flat_map (fun c => map (pair room_id) (message_for c)) message_chain
       /\ length (errors effects) <= length message_chain
  else room_sends effects = []
       /\ errors effects = [ "Matrix 会话缺少房间 ID" ].
Proof.
  cbv zeta. unfold send_by_session.
  destruct (PyStr.truthy room_id); simpl.
  - split.
    + now rewrite loop_calls.
    + pose proof (loop_errors room_id message_chain []). simpl in *. lia.
  - split; reflexivity.
Qed.

End Client.

(** A chain sent to a homeserver that refuses everything: all three
    calls are made, and each failure is logged. *)
Example refused_chain_is_tried_to_the_end :
  let effects :=
    send_by_session refusing "!room:example.org"
      [ Plain ""; Image None None None; File (Some "a.txt"); Plain "bye" ] in
  map (fun rc => body (snd rc)) (room_sends effects)
  = [ ""; "[文件] a.txt"; "bye" ]
  /\ length (errors effects) = 4.
Proof. split; reflexivity. Qed.

End MatrixProps.
